(** * LiblibAIService (src/lib/liblibai.ts): signing, upload, submission, polling

    A shallow embedding of the TypeScript client in [src/lib/liblibai.ts].

    - JavaScript strings are [string]s holding their UTF-8 bytes; every
      pattern the code matches on ('.', '+', '/', '=', "http", "failed",
      "timed out") is ASCII, so matching on bytes agrees with matching on
      UTF-16 code units.
    - Integer-valued JavaScript numbers are [Z] or [N]; [maxAttempts] is
      taken to be an integer.
    - The asynchronous methods run in a state-and-exception monad over a
      [world] that records every network call and every sleep; the
      answers of the outside world (clock, random source, HTTP
      endpoints) are read from an [Env] of oracles.
    - The JSON answers of the endpoints are typed by the fields the
      service reads from them; the workflow parameters, which the source
      types as [any], are untyped [value]s.
    - Console logging is left out. *)

From Stdlib Require Import ZArith NArith List String Ascii Bool Lia DecimalString.
Import ListNotations.

Open Scope string_scope.
Open Scope Z_scope.

(* ================================================================== *)
(** ** JavaScript string primitives used by the service *)

Module Js.

(** [s.startsWith(p)] *)
Definition startsWith (s p : string) : bool := String.prefix p s.

(** [s.includes(p)] *)
Fixpoint includes (s p : string) : bool :=
  String.prefix p s ||
  match s with
  | EmptyString => false
  | String _ s' => includes s' p
  end.

(** [xs.includes(x)] on an array of strings *)
Definition array_includes (xs : list string) (x : string) : bool :=
  existsb (String.eqb x) xs.

(** [s.split('.')]: the segments between the dots; never the empty array. *)
Fixpoint split_dot (s : string) : list string :=
  match s with
  | EmptyString => [EmptyString]
  | String c s' =>
      if Ascii.eqb c "." then EmptyString :: split_dot s'
      else match split_dot s' with
           | [] => [String c EmptyString]
           | seg :: segs => String c seg :: segs
           end
  end.

(** [xs.pop()] read as a value: the last element, [undefined] on []. *)
Fixpoint pop (xs : list string) : option string :=
  match xs with
  | [] => None
  | [x] => Some x
  | _ :: xs' => pop xs'
  end.

(** One character of [s.toLowerCase()].  Only 'A'..'Z' are mapped: no
    other code point lower-cases to a letter of "jpg", "jpeg" or "png",
    which is all the service compares the result with. *)
Definition lower_ascii (c : ascii) : ascii :=
  let n := nat_of_ascii c in
  if ((65 <=? n) && (n <=? 90))%nat then ascii_of_nat (n + 32) else c.

Fixpoint toLowerCase (s : string) : string :=
  match s with
  | EmptyString => EmptyString
  | String c s' => String (lower_ascii c) (toLowerCase s')
  end.

(** [s.replace(/c/g, d)] for a single character [c]. *)
Fixpoint replace_all_char (c d : ascii) (s : string) : string :=
  match s with
  | EmptyString => EmptyString
  | String x s' =>
      String (if Ascii.eqb x c then d else x) (replace_all_char c d s')
  end.

(** [s.replace(/c+$/, "")]: the match is the maximal run of [c] that ends
    the string, if there is one. *)
Fixpoint strip_trailing_char (c : ascii) (s : string) : string :=
  match s with
  | EmptyString => EmptyString
  | String x s' =>
      match strip_trailing_char c s' with
      | EmptyString => if Ascii.eqb x c then EmptyString else String x EmptyString
      | r => String x r
      end
  end.

Fixpoint drop (n : nat) (s : string) : string :=
  match n, s with
  | O, _ => s
  | S n', String _ s' => drop n' s'
  | S _, EmptyString => EmptyString
  end.

(** [s.replace(pat, rep)] with a string pattern: the first occurrence
    only ([rep] holds no '$'). *)
Fixpoint replace_first (pat rep s : string) : string :=
  if String.prefix pat s then rep ++ drop (String.length pat) s
  else match s with
       | EmptyString => EmptyString
       | String x s' => String x (replace_first pat rep s')
       end.

(** [s.charAt(i)]: the empty string when [i] is out of range. *)
Definition charAt (s : string) (i : nat) : string :=
  match String.get i s with
  | Some c => String c EmptyString
  | None => EmptyString
  end.

(** [`${n}`] for an integer [n] of magnitude below 1e21. *)
Definition string_of_N (n : N) : string := NilEmpty.string_of_uint (N.to_uint n).
Definition string_of_Z (z : Z) : string := NilEmpty.string_of_int (Z.to_int z).

(** [a || b] on strings: the empty string is the only falsy one. *)
Definition or_else (a : option string) (b : string) : string :=
  match a with
  | Some (String c r) => String c r
  | _ => b
  end.

End Js.

(* ================================================================== *)
(** ** The crypto-js dependency *)

(** Modelled from the spec: the npm package crypto-js is imported by the
    service and is not part of the repository sources.  The spec names
    what the service obtains from it: "an HMAC (SHA-1) over this message
    using the shared secret", the digest then encoded as base64.  The
    definitions follow the standards crypto-js implements: SHA-1
    (RFC 3174), HMAC (RFC 2104), base64 with padding (RFC 4648), strings
    read as their UTF-8 bytes.  Words are 32-bit values held in [Z], the
    wrap-around written out. *)
Module CryptoJS.

Definition byte_of_ascii (c : ascii) : Z := Z.of_N (N_of_ascii c).

Definition bytes_of_string (s : string) : list Z :=
  map byte_of_ascii (list_ascii_of_string s).

Definition w32 (x : Z) : Z := Z.land x 4294967295.
Definition add32 (x y : Z) : Z := w32 (x + y).
Definition not32 (x : Z) : Z := Z.lxor x 4294967295.
Definition rotl (n : Z) (x : Z) : Z :=
  Z.lor (w32 (Z.shiftl x n)) (Z.shiftr (w32 x) (32 - n)).

(** Big-endian bytes of the low [n] bytes of [x]. *)
Fixpoint be_bytes (n : nat) (x : Z) : list Z :=
  match n with
  | O => []
  | S n' => Z.land (Z.shiftr x (8 * Z.of_nat n')) 255 :: be_bytes n' x
  end.

Fixpoint be_words (n : nat) (bs : list Z) : list Z :=
  match n with
  | O => []
  | S n' =>
      match bs with
      | b0 :: b1 :: b2 :: b3 :: bs' =>
          Z.lor (Z.shiftl b0 24) (Z.lor (Z.shiftl b1 16) (Z.lor (Z.shiftl b2 8) b3))
          :: be_words n' bs'
      | _ => []
      end
  end.

(** Message padding: 0x80, zeros up to 56 mod 64, the bit length on 8 bytes. *)
Definition pad (msg : list Z) : list Z :=
  let len := Z.of_nat (List.length msg) in
  let zeros := Z.to_nat ((55 - len) mod 64) in
  msg ++ 128 :: repeat 0 zeros ++ be_bytes 8 (8 * len).

Definition f_round (t : nat) (b c d : Z) : Z :=
  if (t <? 20)%nat then Z.lor (Z.land b c) (Z.land (not32 b) d)
  else if (t <? 40)%nat then Z.lxor b (Z.lxor c d)
  else if (t <? 60)%nat then Z.lor (Z.land b c) (Z.lor (Z.land b d) (Z.land c d))
  else Z.lxor b (Z.lxor c d).

Definition k_round (t : nat) : Z :=
  if (t <? 20)%nat then 1518500249
  else if (t <? 40)%nat then 1859775393
  else if (t <? 60)%nat then 2400959708
  else 3395469782.

Definition state : Type := (Z * Z * Z * Z * Z)%type.

(** Rounds [t], [t+1], ... while [n] rounds remain; [ws] holds the sixteen
    schedule words W[t] .. W[t+15]. *)
Fixpoint rounds (n t : nat) (ws : list Z) (st : state) : state :=
  match n with
  | O => st
  | S n' =>
      let '(a, b, c, d, e) := st in
      let w := nth 0 ws 0 in
      let next :=
        rotl 1 (Z.lxor (nth 13 ws 0) (Z.lxor (nth 8 ws 0) (Z.lxor (nth 2 ws 0) w))) in
      let tmp :=
        add32 (add32 (add32 (add32 (rotl 5 a) (f_round t b c d)) e) w) (k_round t) in
      rounds n' (S t) (tl ws ++ [next]) (tmp, a, rotl 30 b, c, d)
  end.

Definition compress (st : state) (block : list Z) : state :=
  let '(a, b, c, d, e) := st in
  let '(a', b', c', d', e') := rounds 80 0 (be_words 16 block) st in
  (add32 a a', add32 b b', add32 c c', add32 d d', add32 e e').

Fixpoint blocks (n : nat) (bs : list Z) (st : state) : state :=
  match n with
  | O => st
  | S n' => blocks n' (skipn 64 bs) (compress st (firstn 64 bs))
  end.

Definition SHA1 (msg : list Z) : list Z :=
  let p := pad msg in
  let '(a, b, c, d, e) :=
    blocks (List.length p / 64) p
      (1732584193, 4023233417, 2562383102, 271733878, 3285377520) in
  be_bytes 4 a ++ be_bytes 4 b ++ be_bytes 4 c ++ be_bytes 4 d ++ be_bytes 4 e.

Definition hmac_key (key : list Z) : list Z :=
  let k := if (64 <? List.length key)%nat then SHA1 key else key in
  k ++ repeat 0 (64 - List.length k).

(** [CryptoJS.HmacSHA1(message, key)]: the 20 digest bytes. *)
Definition HmacSHA1 (message key : string) : list Z :=
  let k := hmac_key (bytes_of_string key) in
  let ikey := map (Z.lxor 54) k in
  let okey := map (Z.lxor 92) k in
  SHA1 (okey ++ SHA1 (ikey ++ bytes_of_string message)).

Definition base64_map : string :=
  "ABCDEFGHIJKLMNOPQRSTUVWXYZabcdefghijklmnopqrstuvwxyz0123456789+/".

Definition b64_char (i : Z) : ascii :=
  match String.get (Z.to_nat (Z.land i 63)) base64_map with
  | Some c => c
  | None => "="%char
  end.

(** [wordArray.toString(CryptoJS.enc.Base64)] *)
Fixpoint Base64 (bs : list Z) : string :=
  match bs with
  | [] => EmptyString
  | [b1] =>
      let t := Z.shiftl b1 16 in
      String (b64_char (Z.shiftr t 18)) (String (b64_char (Z.shiftr t 12)) "==")
  | [b1; b2] =>
      let t := Z.lor (Z.shiftl b1 16) (Z.shiftl b2 8) in
      String (b64_char (Z.shiftr t 18)) (String (b64_char (Z.shiftr t 12))
        (String (b64_char (Z.shiftr t 6)) "="))
  | b1 :: b2 :: b3 :: bs' =>
      let t := Z.lor (Z.shiftl b1 16) (Z.lor (Z.shiftl b2 8) b3) in
      String (b64_char (Z.shiftr t 18)) (String (b64_char (Z.shiftr t 12))
        (String (b64_char (Z.shiftr t 6)) (String (b64_char t) (Base64 bs'))))
  end.

End CryptoJS.

(* ================================================================== *)
(** ** Values, errors and the outside world *)

(** What a [throw] carries.  Everything the service itself throws is an
    [Error]; a failing network call may reject with any value. *)
Inductive thrown : Type :=
| JsError (message : string)
| NonError (shown : string).

(** [error instanceof Error && (error.message.includes(a) || ...)] reads
    the message of an [Error] only. *)
Definition message_includes (t : thrown) (p : string) : bool :=
  match t with
  | JsError m => Js.includes m p
  | NonError _ => false
  end.

Inductive result (A : Type) : Type :=
| Ok (a : A)
| Throw (t : thrown).
Arguments Ok {A} a.
Arguments Throw {A} t.

(** Untyped request parameters ([any] in the source). *)
#[local] Set Warnings "-register-all".
Inductive value : Type :=
| VUndefined
| VNull
| VBool (b : bool)
| VNum (n : Z)
| VStr (s : string)
| VObj (props : list (string * value)).

Definition truthy (v : value) : bool :=
  match v with
  | VUndefined | VNull => false
  | VBool b => b
  | VNum n => negb (n =? 0)
  | VStr s => negb (String.eqb s "")
  | VObj _ => true
  end.

Fixpoint lookup (k : string) (ps : list (string * value)) : option value :=
  match ps with
  | [] => None
  | (k', v) :: ps' => if String.eqb k k' then Some v else lookup k ps'
  end.

Fixpoint update (k : string) (v : value) (ps : list (string * value))
  : list (string * value) :=
  match ps with
  | [] => [(k, v)]
  | (k', v') :: ps' =>
      if String.eqb k k' then (k, v) :: ps' else (k', v') :: update k v ps'
  end.

(** [o[k]] and [o.k].  The service reads properties of truthy values
    only, and of the names "190", "inputs", "image" and "key", which no
    primitive value has. *)
Definition get_prop (o : value) (k : string) : value :=
  match o with
  | VObj ps => match lookup k ps with Some v => v | None => VUndefined end
  | _ => VUndefined
  end.

(** [o[k] = v] *)
Definition set_prop (o : value) (k : string) (v : value) : value :=
  match o with
  | VObj ps => VObj (update k v ps)
  | _ => o
  end.

(** [k in o] for an object [o] *)
Definition has_prop (o : value) (k : string) : bool :=
  match o with
  | VObj ps => match lookup k ps with Some _ => true | None => false end
  | _ => false
  end.

Record comfy_params : Type := {
  templateUuid : string;
  generateParams : value
}.

(** The [uploadedUrl] of [generateImage]: a string, or an object with a
    [key] and an optional [ossBaseUrl]. *)
Inductive uploaded_url : Type :=
| UploadedString (s : string)
| UploadedObject (key : string) (ossBaseUrl : option string).

(** The parameters of [generateImage]; width and height are integers. *)
Record image_params : Type := {
  gi_templateUuid : string;
  gi_workflowUuid : string;
  gi_width : Z;
  gi_height : Z;
  gi_uploadedUrl : uploaded_url;
  gi_prompt : string
}.

(** The JSON body of a request to the reverse proxy. *)
Inductive request_data : Type :=
| UploadSignatureData (name extension : string)
| ComfyData (params : comfy_params)
| StatusData (generateUuid : string).

Record proxy_request : Type := {
  req_url : string;
  req_path : string;
  req_signatureParams : string;
  req_data : request_data
}.

(** The multipart form sent to object storage: the fields in the order
    they were appended, the file part last. *)
Record oss_request : Type := {
  oss_url : string;
  oss_fields : list (string * string);
  oss_file_name : string;
  oss_file_type : string;
  oss_file_body : list Byte.byte
}.

(** The proxy's JSON envelope [{code, msg, data}]; [data] is typed by the
    fields the service reads from it. *)
Record axios_response (D : Type) : Type := {
  code : Z;
  msg : string;
  data : D
}.
Arguments code {D} _.
Arguments msg {D} _.
Arguments data {D} _.

Inductive axios_result (D : Type) : Type :=
| AxiosThrew (t : thrown)
| AxiosResp (r : axios_response D).
Arguments AxiosThrew {D} t.
Arguments AxiosResp {D} r.

Record signature_data : Type := {
  postUrl : string;
  originalPostUrl : option string;
  key : string;
  policy : string;
  xOssSignature : string;
  xOssCredential : string;
  xOssDate : string;
  xOssExpires : Z;
  xOssSignatureVersion : string
}.

Record generate_data : Type := { generateUuid : string }.

Record image : Type := { imageUrl : string }.

(** The status payload; all three fields are optional in the answer. *)
Record status_data : Type := {
  generateStatus : option Z;
  images : option (list image);
  failReason : option string
}.

Inductive fetch_result : Type :=
| FetchThrew (t : thrown)
| FetchResp (status : Z) (text : string).

Inductive event : Type :=
| EvPost (r : proxy_request)
| EvFetch (r : oss_request)
| EvSleep (ms : Z).

(** What has happened so far: how often the clock and the random source
    were read, how many network calls were made, and the log of calls and
    sleeps, oldest first. *)
Record world : Type := {
  clock_reads : nat;
  rng_draws : nat;
  net_calls : nat;
  trace : list event
}.

Definition initial_world : world :=
  {| clock_reads := 0; rng_draws := 0; net_calls := 0; trace := [] |}.

(** The answers of the outside world.  [Date_now k] is the k-th reading
    of [Date.now()]; [random_index k] is the k-th value of
    [Math.floor(Math.random() * chars.length)]; the k-th network call
    is answered by the oracle of the endpoint it addresses. *)
Record Env : Type := {
  Date_now : nat -> N;
  random_index : nat -> nat;
  post_upload_signature : nat -> proxy_request -> axios_result signature_data;
  post_comfy_app : nat -> proxy_request -> axios_result generate_data;
  post_comfy_status : nat -> proxy_request -> axios_result status_data;
  fetch : nat -> oss_request -> fetch_result
}.

(* ================================================================== *)
(** ** The monad of the asynchronous methods *)

Definition M (A : Type) : Type := world -> result A * world.

Definition ret {A} (a : A) : M A := fun w => (Ok a, w).

Definition throw {A} (t : thrown) : M A := fun w => (Throw t, w).

Definition bind {A B} (m : M A) (k : A -> M B) : M B :=
  fun w =>
    match m w with
    | (Ok a, w') => k a w'
    | (Throw t, w') => (Throw t, w')
    end.

(** [try { m } catch (error) { handler error }] *)
Definition try_catch {A} (m : M A) (handler : thrown -> M A) : M A :=
  fun w =>
    match m w with
    | (Ok a, w') => (Ok a, w')
    | (Throw t, w') => handler t w'
    end.

Declare Scope js_scope.
Delimit Scope js_scope with js.
Notation "x <- m ;; k" := (bind m (fun x => k))
  (at level 61, m at next level, right associativity) : js_scope.
Notation "m ;;; k" := (bind m (fun _ => k))
  (at level 61, right associativity) : js_scope.
Open Scope js_scope.

Definition log_event (e : event) (w : world) : world :=
  {| clock_reads := clock_reads w; rng_draws := rng_draws w;
     net_calls := net_calls w; trace := trace w ++ [e] |}.

Definition log_call (e : event) (w : world) : world :=
  {| clock_reads := clock_reads w; rng_draws := rng_draws w;
     net_calls := S (net_calls w); trace := trace w ++ [e] |}.

(** [await new Promise(resolve => setTimeout(resolve, ms))] *)
Definition sleep (ms : Z) : M unit :=
  fun w => (Ok tt, log_event (EvSleep ms) w).

(** The status enumeration declared inside [waitAppResult]. *)
Module GenerateStatus.
Definition PENDING : Z := 1.
Definition PROCESSING : Z := 2.
Definition GENERATED : Z := 3.
Definition AUDITING : Z := 4.
Definition SUCCESS : Z := 5.
Definition FAILED : Z := 6.
Definition TIMEOUT : Z := 7.
End GenerateStatus.

Section Service.

Variable E : Env.

Definition date_now : M N :=
  fun w =>
    (Ok (Date_now E (clock_reads w)),
     {| clock_reads := S (clock_reads w); rng_draws := rng_draws w;
        net_calls := net_calls w; trace := trace w |}).

Definition math_random_index : M nat :=
  fun w =>
    (Ok (random_index E (rng_draws w)),
     {| clock_reads := clock_reads w; rng_draws := S (rng_draws w);
        net_calls := net_calls w; trace := trace w |}).

(** [await axios.post(url, body, config)]: the call is logged, then the
    endpoint answers or the call rejects. *)
Definition axios_post {D} (oracle : nat -> proxy_request -> axios_result D)
  (r : proxy_request) : M (axios_response D) :=
  fun w =>
    let w' := log_call (EvPost r) w in
    match oracle (net_calls w) r with
    | AxiosThrew t => (Throw t, w')
    | AxiosResp resp => (Ok resp, w')
    end.

(** [await fetch(url, {method: 'POST', body: formData})] *)
Definition fetch_post (r : oss_request) : M (Z * string) :=
  fun w =>
    let w' := log_call (EvFetch r) w in
    match fetch E (net_calls w) r with
    | FetchThrew t => (Throw t, w')
    | FetchResp status text => (Ok (status, text), w')
    end.

(* ---------------------------------------------------------------- *)
(** *** The service object *)

Record LiblibAIService : Type := {
  apiKey : string;
  apiSecret : string;
  baseURL : string;
  proxyURL : string
}.

Definition ossBaseUrl : string :=
  "https://liblibai-airship-temp.oss-cn-beijing.aliyuncs.com".

Definition new_LiblibAIService (apiKey apiSecret : string) (baseURL : option string)
  : LiblibAIService :=
  {| apiKey := apiKey;
     apiSecret := apiSecret;
     baseURL := Js.or_else baseURL "https://openapi.liblibai.cloud";
     proxyURL := "/api/liblibai" |}.

Variable this : LiblibAIService.

(* ---------------------------------------------------------------- *)
(** *** Signer *)

Definition nonce_chars : string :=
  "ABCDEFGHIJKLMNOPQRSTUVWXYZabcdefghijklmnopqrstuvwxyz0123456789".

Fixpoint generateNonce_from (length : nat) (result : string) : M string :=
  match length with
  | O => ret result
  | S length' =>
      i <- math_random_index ;;
      generateNonce_from length' (result ++ Js.charAt nonce_chars i)
  end.

Definition generateNonce (length : nat) : M string :=
  generateNonce_from length "".

Record url_signature : Type := {
  signature : string;
  timestamp : N;
  signatureNonce : string
}.

Definition generateUrlSignature (path : string) : M url_signature :=
  timestamp <- date_now ;;
  signatureNonce <- generateNonce 16 ;;
  let str := path ++ "&" ++ Js.string_of_N timestamp ++ "&" ++ signatureNonce in
  let hash := CryptoJS.Base64 (CryptoJS.HmacSHA1 str (apiSecret this)) in
  let signature :=
    Js.strip_trailing_char "="
      (Js.replace_all_char "/" "_" (Js.replace_all_char "+" "-" hash)) in
  ret {| signature := signature;
         timestamp := timestamp;
         signatureNonce := signatureNonce |}.

Definition buildSignatureParams (path : string) : M string :=
  s <- generateUrlSignature path ;;
  ret ("AccessKey=" ++ apiKey this ++ "&Signature=" ++ signature s
       ++ "&Timestamp=" ++ Js.string_of_N (timestamp s)
       ++ "&SignatureNonce=" ++ signatureNonce s).

(* ---------------------------------------------------------------- *)
(** *** Uploader *)

Definition getUploadSignature (filename extension : string) : M signature_data :=
  try_catch
    (let path := "/api/generate/upload/signature" in
     signatureParams <- buildSignatureParams path ;;
     response <- axios_post (post_upload_signature E)
       {| req_url := proxyURL this;
          req_path := path;
          req_signatureParams := signatureParams;
          req_data := UploadSignatureData filename extension |} ;;
     if negb (code response =? 0)
     then throw (JsError ("获取签名失败: " ++ msg response))
     else
       let signatureData := data response in
       if negb (String.eqb (postUrl signatureData) "")
       then ret {| postUrl :=
                     Js.replace_first
                       "https://liblibai-airship-temp.oss-cn-beijing.aliyuncs.com"
                       "/oss-proxy" (postUrl signatureData);
                   originalPostUrl := Some (postUrl signatureData);
                   key := key signatureData;
                   policy := policy signatureData;
                   xOssSignature := xOssSignature signatureData;
                   xOssCredential := xOssCredential signatureData;
                   xOssDate := xOssDate signatureData;
                   xOssExpires := xOssExpires signatureData;
                   xOssSignatureVersion := xOssSignatureVersion signatureData |}
       else ret signatureData)
    (fun error => throw error).

Definition content_type_of (extension : option string) : string :=
  match extension with
  | Some e =>
      if String.eqb e "jpg" || String.eqb e "jpeg" then "image/jpeg"
      else if String.eqb e "png" then "image/png"
      else "application/octet-stream"
  | None => "application/octet-stream"
  end.

Definition uploadToOSS (fileBuffer : list Byte.byte) (signatureData : signature_data)
  (filename : string) : M string :=
  try_catch
    (let fields :=
       [ ("key", key signatureData);
         ("policy", policy signatureData);
         ("x-oss-signature", xOssSignature signatureData);
         ("x-oss-credential", xOssCredential signatureData);
         ("x-oss-date", xOssDate signatureData);
         ("x-oss-expires", Js.string_of_Z (xOssExpires signatureData));
         ("x-oss-signature-version", xOssSignatureVersion signatureData) ] in
     let extension := option_map Js.toLowerCase (Js.pop (Js.split_dot filename)) in
     let contentType := content_type_of extension in
     response <- fetch_post
       {| oss_url := postUrl signatureData;
          oss_fields := fields;
          oss_file_name := filename;
          oss_file_type := contentType;
          oss_file_body := fileBuffer |} ;;
     let '(status, responseText) := response in
     if (200 <=? status) && (status <? 300)
     then ret (key signatureData)
     else throw (JsError ("上传失败，状态码: " ++ Js.string_of_Z status
                          ++ ", 响应: " ++ responseText)))
    (fun error => throw error).

Record upload_result : Type := {
  up_key : string;
  up_ossBaseUrl : string
}.

Definition allowed_extensions : list string := ["jpg"; "jpeg"; "png"].

Definition uploadFile (fileBuffer : list Byte.byte) (filename : string)
  : M upload_result :=
  try_catch
    (let extension :=
       Js.or_else (option_map Js.toLowerCase (Js.pop (Js.split_dot filename))) "png" in
     if negb (Js.array_includes allowed_extensions extension)
     then throw (JsError "文件类型必须是jpg、jpeg或png")
     else
       let normalizedExtension :=
         if String.eqb extension "jpeg" then "jpg" else extension in
       let filenameWithoutExt := Js.or_else (hd_error (Js.split_dot filename)) "image" in
       signatureData <- getUploadSignature filenameWithoutExt normalizedExtension ;;
       let uploadFilename := filenameWithoutExt ++ "." ++ normalizedExtension in
       key <- uploadToOSS fileBuffer signatureData uploadFilename ;;
       ret {| up_key := key; up_ossBaseUrl := ossBaseUrl |})
    (fun error => throw error).

(* ---------------------------------------------------------------- *)
(** *** JobSubmitter *)

(** The block of [runComfy] that rewrites the image reference of node
    "190"; it yields the parameters as they are after the assignment. *)
Definition normalize_image (params : comfy_params) : M comfy_params :=
  let gp := generateParams params in
  if truthy gp && truthy (get_prop gp "190")
     && truthy (get_prop (get_prop gp "190") "inputs")
     && truthy (get_prop (get_prop (get_prop gp "190") "inputs") "image")
  then
    let imageUrl := get_prop (get_prop (get_prop gp "190") "inputs") "image" in
    imageUrl <-
      match imageUrl with
      | VStr _ => ret imageUrl
      | VObj _ =>
          if has_prop imageUrl "key" then ret (get_prop imageUrl "key")
          else throw (JsError "无效的图片URL格式")
      | _ => throw (JsError "无效的图片URL格式")
      end ;;
    let imageUrl :=
      match imageUrl with
      | VStr s =>
          if negb (Js.startsWith s "http") then VStr (ossBaseUrl ++ "/" ++ s)
          else imageUrl
      | _ => imageUrl
      end in
    let node := get_prop gp "190" in
    let inputs := get_prop node "inputs" in
    ret {| templateUuid := templateUuid params;
           generateParams :=
             set_prop gp "190"
               (set_prop node "inputs" (set_prop inputs "image" imageUrl)) |}
  else ret params.

Definition runComfy (params : comfy_params) : M string :=
  try_catch
    (params <- normalize_image params ;;
     let path := "/api/generate/comfyui/app" in
     signatureParams <- buildSignatureParams path ;;
     response <- axios_post (post_comfy_app E)
       {| req_url := proxyURL this;
          req_path := path;
          req_signatureParams := signatureParams;
          req_data := ComfyData params |} ;;
     if negb (code response =? 0)
     then throw (JsError ("Generation failed: " ++ msg response))
     else ret (generateUuid (data response)))
    (fun error => throw error).

(* ---------------------------------------------------------------- *)
(** *** JobPoller *)

Definition getComfyStatus (generateUuid : string) : M status_data :=
  try_catch
    (let path := "/api/generate/comfy/status" in
     signatureParams <- buildSignatureParams path ;;
     response <- axios_post (post_comfy_status E)
       {| req_url := proxyURL this;
          req_path := path;
          req_signatureParams := signatureParams;
          req_data := StatusData generateUuid |} ;;
     if negb (code response =? 0)
     then throw (JsError ("Query failed: " ++ msg response))
     else ret (data response))
    (fun error => throw error).

(** [status.generateStatus === s] *)
Definition status_is (status : status_data) (s : Z) : bool :=
  match generateStatus status with
  | Some n => n =? s
  | None => false
  end.

(** The [try] block of one iteration: [Some url] stands for
    [return url], [None] for reaching the end of the block. *)
Definition poll_try (generateUuid : string) (interval : Z) : M (option string) :=
  status <- getComfyStatus generateUuid ;;
  if status_is status GenerateStatus.SUCCESS then
    match images status with
    | Some (first :: _) => ret (Some (imageUrl first))
    | _ => throw (JsError "No images found in successful generation result")
    end
  else if status_is status GenerateStatus.FAILED
          || status_is status GenerateStatus.TIMEOUT then
    throw (JsError ("Image generation "
                    ++ (if status_is status GenerateStatus.FAILED
                        then "failed" else "timed out")
                    ++ ": " ++ Js.or_else (failReason status) "Unknown reason"))
  else
    sleep interval ;;;
    ret None.

(** The [catch] block of one iteration. *)
Definition poll_catch (attempt maxAttempts interval : Z) (error : thrown)
  : M (option string) :=
  if message_includes error "failed" || message_includes error "timed out"
  then throw error
  else if attempt =? maxAttempts
  then throw error
  else
    sleep interval ;;;
    ret None.

(** One iteration of the loop body. *)
Definition poll_iteration (generateUuid : string) (attempt maxAttempts interval : Z)
  : M (option string) :=
  try_catch (poll_try generateUuid interval)
            (poll_catch attempt maxAttempts interval).

(** The [for] loop from [attempt] on, with [n] iterations left: the loop
    of the source runs for attempt = 1, ..., maxAttempts. *)
Fixpoint poll_loop (n : nat) (generateUuid : string) (attempt maxAttempts interval : Z)
  : M string :=
  match n with
  | O => throw (JsError "Max polling attempts reached")
  | S n' =>
      r <- poll_iteration generateUuid attempt maxAttempts interval ;;
      match r with
      | Some url => ret url
      | None => poll_loop n' generateUuid (attempt + 1) maxAttempts interval
      end
  end.

Definition waitAppResult (generateUuid : string) (maxAttempts interval : Z) : M string :=
  poll_loop (Z.to_nat maxAttempts) generateUuid 1 maxAttempts interval.

Definition pollGenerationResult (generateUuid : string) (maxAttempts : Z) : M string :=
  waitAppResult generateUuid maxAttempts 3000.

(* ---------------------------------------------------------------- *)
(** *** The older entry point *)

Definition generateImage (params : image_params) : M string :=
  try_catch
    (imageUrl <-
       match gi_uploadedUrl params with
       | UploadedObject key base =>
           if negb (String.eqb key "") then
             match base with
             | Some (String c b) => ret (String c b ++ "/" ++ key)
             | _ => ret (ossBaseUrl ++ "/" ++ key)
             end
           else throw (JsError "无效的图片URL格式")
       | UploadedString s => ret s
       end ;;
     let imageUrl :=
       if negb (Js.startsWith imageUrl "http") then ossBaseUrl ++ "/" ++ imageUrl
       else imageUrl in
     let comfyParams :=
       {| templateUuid := gi_templateUuid params;
          generateParams :=
            VObj [ ("workflowUuid", VStr (gi_workflowUuid params));
                   ("188", VObj [ ("class_type", VStr "EmptySD3LatentImage");
                                  ("inputs", VObj [ ("width", VNum (gi_width params));
                                                    ("height", VNum (gi_height params));
                                                    ("batch_size", VNum 1) ]) ]);
                   ("190", VObj [ ("class_type", VStr "LoadImage");
                                  ("inputs", VObj [ ("image", VStr imageUrl) ]) ]);
                   ("240", VObj [ ("class_type", VStr "LibLibTranslate");
                                  ("inputs",
                                   VObj [ ("text", VStr (gi_prompt params)) ]) ]) ] |} in
     generateUuid <- runComfy comfyParams ;;
     ret generateUuid)
    (fun error => throw error).

End Service.

(* ================================================================== *)
(** * Definitions used to state the properties *)

Section Derived.

Variable E : Env.
Variable this : LiblibAIService.
Variable generateUuid : string.
Variables maxAttempts interval : Z.

(** The spec's wording of the URL-safe encoding, on the list of
    characters: substitute '+' and '/', then drop the '=' that end it. *)
Definition url_safe_subst (c : ascii) : ascii :=
  if Ascii.eqb c "+" then "-"%char
  else if Ascii.eqb c "/" then "_"%char
  else c.

Fixpoint drop_while (p : ascii -> bool) (l : list ascii) : list ascii :=
  match l with
  | [] => []
  | x :: l' => if p x then drop_while p l' else l
  end.

Definition spec_url_safe (s : string) : string :=
  string_of_list_ascii
    (rev (drop_while (fun c => Ascii.eqb c "=")
            (rev (map url_safe_subst (list_ascii_of_string s))))).

(** The spec's wording of the signature. *)
Definition spec_signature (path secret : string) (timestamp : N) (nonce : string)
  : string :=
  spec_url_safe
    (CryptoJS.Base64
       (CryptoJS.HmacSHA1 (path ++ "&" ++ Js.string_of_N timestamp ++ "&" ++ nonce)
          secret)).

(** The alphabet [A-Za-z0-9_-]. *)
Definition url_safe_alphabet (c : ascii) : bool :=
  let n := nat_of_ascii c in
  ((65 <=? n) && (n <=? 90) || (97 <=? n) && (n <=? 122)
   || (48 <=? n) && (n <=? 57) || (n =? 95) || (n =? 45))%nat.

Fixpoint string_forall (p : ascii -> bool) (s : string) : bool :=
  match s with
  | EmptyString => true
  | String c s' => p c && string_forall p s'
  end.

Fixpoint string_mem (c : ascii) (s : string) : bool :=
  match s with
  | EmptyString => false
  | String x s' => Ascii.eqb x c || string_mem c s'
  end.

(** The nonce read from the draws [k], [k+1], ... of the random source. *)
Fixpoint nonce_string (length : nat) (result : string) (k : nat) : string :=
  match length with
  | O => result
  | S length' =>
      nonce_string length' (result ++ Js.charAt nonce_chars (random_index E k)) (S k)
  end.

Definition drawn (n : nat) (w : world) : world :=
  {| clock_reads := clock_reads w; rng_draws := n + rng_draws w;
     net_calls := net_calls w; trace := trace w |}.

(** The world after one signature: one clock reading, sixteen draws. *)
Definition signed (w : world) : world :=
  {| clock_reads := S (clock_reads w); rng_draws := 16 + rng_draws w;
     net_calls := net_calls w; trace := trace w |}.

Definition url_signature_at (path : string) (w : world) : url_signature :=
  let timestamp := Date_now E (clock_reads w) in
  let signatureNonce := nonce_string 16 "" (rng_draws w) in
  let str := path ++ "&" ++ Js.string_of_N timestamp ++ "&" ++ signatureNonce in
  {| signature :=
       Js.strip_trailing_char "="
         (Js.replace_all_char "/" "_"
            (Js.replace_all_char "+" "-"
               (CryptoJS.Base64 (CryptoJS.HmacSHA1 str (apiSecret this)))));
     timestamp := timestamp;
     signatureNonce := signatureNonce |}.

Definition signature_params_at (path : string) (w : world) : string :=
  let s := url_signature_at path w in
  "AccessKey=" ++ apiKey this ++ "&Signature=" ++ signature s
  ++ "&Timestamp=" ++ Js.string_of_N (timestamp s)
  ++ "&SignatureNonce=" ++ signatureNonce s.

(** The request of a status query made in world [w]. *)
Definition status_request (w : world) : proxy_request :=
  {| req_url := proxyURL this;
     req_path := "/api/generate/comfy/status";
     req_signatureParams := signature_params_at "/api/generate/comfy/status" w;
     req_data := StatusData generateUuid |}.

(** What [getComfyStatus] makes of the endpoint's answer. *)
Definition status_reply (a : axios_result status_data) : result status_data :=
  match a with
  | AxiosThrew t => Throw t
  | AxiosResp r =>
      if negb (code r =? 0) then Throw (JsError ("Query failed: " ++ msg r))
      else Ok (data r)
  end.

(** The world after a status query, and after the sleep that follows. *)
Definition queried (w : world) : world :=
  log_call (EvPost (status_request w)) (signed w).

Definition slept (w : world) : world := log_event (EvSleep interval) w.

(** The world at the loop head after [k] iterations that went on. *)
Fixpoint polled (k : nat) (w : world) : world :=
  match k with
  | O => w
  | S k' => polled k' (slept (queried w))
  end.

(** The reply to status query number [k] (from 0) of a run started in
    [w0] whose earlier iterations went on. *)
Definition reply_at (w0 : world) (k : nat) : result status_data :=
  status_reply
    (post_comfy_status E (net_calls (polled k w0)) (status_request (polled k w0))).

(** A payload that reports none of Success, Failed, Timeout. *)
Definition non_terminal (st : status_data) : bool :=
  negb (status_is st GenerateStatus.SUCCESS)
  && negb (status_is st GenerateStatus.FAILED)
  && negb (status_is st GenerateStatus.TIMEOUT).

Definition has_marker (t : thrown) : bool :=
  message_includes t "failed" || message_includes t "timed out".

(** A reply after which the loop goes on when attempts remain: a
    non-terminal payload, or an error without "failed" or "timed out". *)
Definition keeps_polling (r : result status_data) : bool :=
  match r with
  | Ok st => non_terminal st
  | Throw t => negb (has_marker t)
  end.

Definition failure_message (st : status_data) : string :=
  "Image generation "
  ++ (if status_is st GenerateStatus.FAILED then "failed" else "timed out")
  ++ ": " ++ Js.or_else (failReason st) "Unknown reason".

(** The loop head of a run started in [w0] is reached with [n]
    iterations left, attempt counter [attempt], in world [w]. *)
Inductive reaches (w0 : world) : nat -> Z -> world -> Prop :=
| reaches_first : reaches w0 (Z.to_nat maxAttempts) 1 w0
| reaches_next (n : nat) (attempt : Z) (w w' : world) :
    reaches w0 (S n) attempt w ->
    poll_iteration E this generateUuid attempt maxAttempts interval w = (Ok None, w') ->
    reaches w0 n (attempt + 1) w'.

(** The [extension] of [uploadFile]: the last segment of the filename in
    lower case, "png" when that segment is empty. *)
Definition file_extension (filename : string) : string :=
  Js.or_else (option_map Js.toLowerCase (Js.pop (Js.split_dot filename))) "png".

Definition normalized_extension (filename : string) : string :=
  if String.eqb (file_extension filename) "jpeg" then "jpg"
  else file_extension filename.

Definition base_name (filename : string) : string :=
  Js.or_else (hd_error (Js.split_dot filename)) "image".

(** The authorization request [uploadFile] sends in world [w]. *)
Definition authorization_request (filename : string) (w : world) : proxy_request :=
  {| req_url := proxyURL this;
     req_path := "/api/generate/upload/signature";
     req_signatureParams :=
       signature_params_at "/api/generate/upload/signature" w;
     req_data :=
       UploadSignatureData (base_name filename) (normalized_extension filename) |}.

(** The authorization as [getUploadSignature] hands it on. *)
Definition proxied (sd : signature_data) : signature_data :=
  if negb (String.eqb (postUrl sd) "")
  then {| postUrl :=
            Js.replace_first
              "https://liblibai-airship-temp.oss-cn-beijing.aliyuncs.com"
              "/oss-proxy" (postUrl sd);
          originalPostUrl := Some (postUrl sd);
          key := key sd;
          policy := policy sd;
          xOssSignature := xOssSignature sd;
          xOssCredential := xOssCredential sd;
          xOssDate := xOssDate sd;
          xOssExpires := xOssExpires sd;
          xOssSignatureVersion := xOssSignatureVersion sd |}
  else sd.

(** The form [uploadToOSS] posts for [uploadFile]. *)
Definition upload_request (fileBuffer : list Byte.byte) (sd : signature_data)
  (filename : string) : oss_request :=
  let uploadFilename := base_name filename ++ "." ++ normalized_extension filename in
  {| oss_url := postUrl sd;
     oss_fields :=
       [ ("key", key sd);
         ("policy", policy sd);
         ("x-oss-signature", xOssSignature sd);
         ("x-oss-credential", xOssCredential sd);
         ("x-oss-date", xOssDate sd);
         ("x-oss-expires", Js.string_of_Z (xOssExpires sd));
         ("x-oss-signature-version", xOssSignatureVersion sd) ];
     oss_file_name := uploadFilename;
     oss_file_type :=
       content_type_of
         (option_map Js.toLowerCase (Js.pop (Js.split_dot uploadFilename)));
     oss_file_body := fileBuffer |}.

(** The image reference of node "190". *)
Definition image_of (params : comfy_params) : value :=
  get_prop (get_prop (get_prop (generateParams params) "190") "inputs") "image".

(** The request [runComfy] sends in world [w] for parameters [params]. *)
Definition comfy_request (params : comfy_params) (w : world) : proxy_request :=
  {| req_url := proxyURL this;
     req_path := "/api/generate/comfyui/app";
     req_signatureParams := signature_params_at "/api/generate/comfyui/app" w;
     req_data := ComfyData params |}.

End Derived.

(* ================================================================== *)
(** * Concrete runs *)

Module Scenario.

Definition service : LiblibAIService :=
  new_LiblibAIService "access-key" "shared-secret" None.

Definition authorization : signature_data :=
  {| postUrl := "https://liblibai-airship-temp.oss-cn-beijing.aliyuncs.com/";
     originalPostUrl := None;
     key := "uploads/photo";
     policy := "policy";
     xOssSignature := "oss-signature";
     xOssCredential := "oss-credential";
     xOssDate := "20240101T000000Z";
     xOssExpires := 3600;
     xOssSignatureVersion := "OSS4-HMAC-SHA256" |}.

(** A status payload delivered with code 0. *)
Definition status (s : Z) (imgs : option (list image)) (reason : option string)
  : axios_result status_data :=
  AxiosResp {| code := 0; msg := "success";
               data := {| generateStatus := Some s; images := imgs;
                          failReason := reason |} |}.

Definition result_url : string := "https://cdn.example/out.png".
Definition one_result : option (list image) := Some [{| imageUrl := result_url |}].

(** An outside world whose status endpoint answers the k-th network
    call with [answers k]; the other endpoints always succeed. *)
Definition env (answers : nat -> axios_result status_data) : Env :=
  {| Date_now := fun k => (1730000000000 + N.of_nat k)%N;
     random_index := fun k => ((7 * k + 3) mod 62)%nat;
     post_upload_signature := fun _ _ =>
       AxiosResp {| code := 0; msg := "success"; data := authorization |};
     post_comfy_app := fun _ _ =>
       AxiosResp {| code := 0; msg := "success"; data := {| generateUuid := "job-1" |} |};
     post_comfy_status := fun k _ => answers k;
     fetch := fun _ _ => FetchResp 200 "" |}.

(** Pending, then Failed at attempt 2. *)
Definition failed_at_2 (k : nat) : axios_result status_data :=
  match k with
  | 1%nat => status GenerateStatus.FAILED None (Some "content rejected")
  | _ => status GenerateStatus.PENDING None None
  end.

(** Success with an empty result list, then Success with one result. *)
Definition empty_then_result (k : nat) : axios_result status_data :=
  match k with
  | O => status GenerateStatus.SUCCESS (Some []) None
  | _ => status GenerateStatus.SUCCESS one_result None
  end.

(** The first status call is rejected by axios for an HTTP 502 (the
    message axios gives such a rejection); the job is done by then. *)
Definition bad_gateway_then_result (k : nat) : axios_result status_data :=
  match k with
  | O => AxiosThrew (JsError "Request failed with status code 502")
  | _ => status GenerateStatus.SUCCESS one_result None
  end.

(** Fifty-nine network errors, then Success with one result. *)
Definition network_errors_then_result (k : nat) : axios_result status_data :=
  if (k <? 59)%nat then AxiosThrew (JsError "Network Error")
  else status GenerateStatus.SUCCESS one_result None.

Definition network_down (k : nat) : axios_result status_data :=
  AxiosThrew (JsError "Network Error").

Definition always_processing (k : nat) : axios_result status_data :=
  status GenerateStatus.PROCESSING None None.

(** Pending, Processing, then Success with one result. *)
Definition done_at_3 (k : nat) : axios_result status_data :=
  match k with
  | 0%nat => status GenerateStatus.PENDING None None
  | 1%nat => status GenerateStatus.PROCESSING None None
  | _ => status GenerateStatus.SUCCESS one_result None
  end.

(** Workflow parameters as [generateImage] builds them. *)
Definition params_with_image (img : value) : comfy_params :=
  {| templateUuid := "template-1";
     generateParams :=
       VObj [ ("workflowUuid", VStr "workflow-1");
              ("188", VObj [ ("class_type", VStr "EmptySD3LatentImage");
                             ("inputs", VObj [ ("width", VNum 1024);
                                               ("height", VNum 1024);
                                               ("batch_size", VNum 1) ]) ]);
              ("190", VObj [ ("class_type", VStr "LoadImage");
                             ("inputs", VObj [ ("image", img) ]) ]);
              ("240", VObj [ ("class_type", VStr "LibLibTranslate");
                             ("inputs", VObj [ ("text", VStr "a cat") ]) ]) ] |}.

End Scenario.

(* ================================================================== *)
(** * Statements the code does not meet as they are written *)

(** A run exhausts the attempt ceiling without reaching a terminal
    state: it makes all [maxAttempts] status queries, and no payload it
    receives reports Success, Failed or Timeout. *)
Definition exhausts_without_terminal
  (E : Env) (this : LiblibAIService) (generateUuid : string)
  (maxAttempts interval : Z) (w0 : world) : Prop :=
  net_calls (snd (waitAppResult E this generateUuid maxAttempts interval w0))
  = (net_calls w0 + Z.to_nat maxAttempts)%nat
  /\ forall k st, (k < Z.to_nat maxAttempts)%nat ->
       reply_at E this generateUuid interval w0 k = Ok st ->
       non_terminal st = true.

(** C5 as the claim states it. *)
Definition max_attempts_claim : Prop :=
  forall (E : Env) (this : LiblibAIService) (generateUuid : string)
         (maxAttempts interval : Z) (w0 : world),
    exhausts_without_terminal E this generateUuid maxAttempts interval w0 ->
    fst (waitAppResult E this generateUuid maxAttempts interval w0)
    = Throw (JsError "Max polling attempts reached").

(** C6 as the claim states it: a bare key is any string that does not
    start with "http". *)
Definition bare_key_claim : Prop :=
  forall (E : Env) (this : LiblibAIService) (params : comfy_params) (w : world)
         (key : string),
    image_of params = VStr key ->
    Js.startsWith key "http" = false ->
    exists (req : proxy_request) (params' : comfy_params),
      trace (snd (runComfy E this params w)) = (trace w ++ [EvPost req])%list
      /\ req_data req = ComfyData params'
      /\ image_of params' = VStr (ossBaseUrl ++ "/" ++ key).

(** C7 as the claim states it, on a filename [name.ext]: the extension is
    the text after the last dot, compared with the allow-list without
    regard to case. *)
Definition extension_claim : Prop :=
  forall (E : Env) (this : LiblibAIService) (fileBuffer : list Byte.byte)
         (name ext : string) (w : world),
    string_mem "." ext = false ->
    Js.array_includes allowed_extensions (Js.toLowerCase ext) = false ->
    uploadFile E this fileBuffer (name ++ "." ++ ext) w
    = (Throw (JsError "文件类型必须是jpg、jpeg或png"), w).

(* ================================================================== *)
(** * Definitions used to state further properties *)

(** The requests posted to the proxy, in the order of a log. *)
Fixpoint posted (tr : list event) : list proxy_request :=
  match tr with
  | [] => []
  | EvPost r :: tr' => r :: posted tr'
  | _ :: tr' => posted tr'
  end.

(** The signature parameters made from clock reading number [clock] and
    the sixteen draws of the random source from number [draw] on. *)
Definition signature_params_of (E : Env) (this : LiblibAIService) (path : string)
  (clock draw : nat) : string :=
  let timestamp := Date_now E clock in
  let nonce := nonce_string E 16 "" draw in
  "AccessKey=" ++ apiKey this
  ++ "&Signature=" ++ spec_signature path (apiSecret this) timestamp nonce
  ++ "&Timestamp=" ++ Js.string_of_N timestamp
  ++ "&SignatureNonce=" ++ nonce.

(** The alphabet of the nonce: [A-Za-z0-9]. *)
Definition alphanumeric (c : ascii) : bool :=
  let n := nat_of_ascii c in
  ((65 <=? n) && (n <=? 90) || (97 <=? n) && (n <=? 122)
   || (48 <=? n) && (n <=? 57))%nat.

(** A truthy image reference [runComfy] cannot use: neither a string nor
    an object with a [key] property. *)
Definition unusable_image (v : value) : bool :=
  match v with
  | VBool b => b
  | VNum n => negb (n =? 0)
  | VObj ps => match lookup "key" ps with Some _ => false | None => true end
  | _ => false
  end.

(** The request [getUploadSignature] sends in world [w]. *)
Definition signature_request (E : Env) (this : LiblibAIService)
  (filename extension : string) (w : world) : proxy_request :=
  {| req_url := proxyURL this;
     req_path := "/api/generate/upload/signature";
     req_signatureParams :=
       signature_params_at E this "/api/generate/upload/signature" w;
     req_data := UploadSignatureData filename extension |}.

(** An event of a polling run: a status query for the job, sent to the
    proxy, or a sleep of the polling interval. *)
Definition poll_event (this : LiblibAIService) (generateUuid : string)
  (interval : Z) (e : event) : Prop :=
  match e with
  | EvPost r =>
      req_url r = proxyURL this
      /\ req_path r = "/api/generate/comfy/status"
      /\ req_data r = StatusData generateUuid
  | EvSleep ms => ms = interval
  | EvFetch _ => False
  end.

(** The image reference [generateImage] submits for the reference [s]
    it resolved: [s] itself if it starts with "http", the storage base
    address, '/' and [s] otherwise. *)
Definition absolute_url (s : string) : string :=
  if negb (Js.startsWith s "http") then ossBaseUrl ++ "/" ++ s else s.

(** The workflow parameters [generateImage] builds around the image
    reference [imageUrl]. *)
Definition image_workflow (params : image_params) (imageUrl : string) : comfy_params :=
  {| templateUuid := gi_templateUuid params;
     generateParams :=
       VObj [ ("workflowUuid", VStr (gi_workflowUuid params));
              ("188", VObj [ ("class_type", VStr "EmptySD3LatentImage");
                             ("inputs", VObj [ ("width", VNum (gi_width params));
                                               ("height", VNum (gi_height params));
                                               ("batch_size", VNum 1) ]) ]);
              ("190", VObj [ ("class_type", VStr "LoadImage");
                             ("inputs", VObj [ ("image", VStr imageUrl) ]) ]);
              ("240", VObj [ ("class_type", VStr "LibLibTranslate");
                             ("inputs",
                              VObj [ ("text", VStr (gi_prompt params)) ]) ]) ] |}.

(** Sample inputs. *)
Module Sample.

Definition upload_by_key : image_params :=
  {| gi_templateUuid := "template-1";
     gi_workflowUuid := "workflow-1";
     gi_width := 1024;
     gi_height := 768;
     gi_uploadedUrl := UploadedObject "uploads/photo.png" None;
     gi_prompt := "a cat" |}.

Definition upload_by_name : image_params :=
  {| gi_templateUuid := "template-1";
     gi_workflowUuid := "workflow-1";
     gi_width := 1024;
     gi_height := 768;
     gi_uploadedUrl := UploadedString "abc123.png";
     gi_prompt := "a cat" |}.

Definition upload_without_key : image_params :=
  {| gi_templateUuid := "template-1";
     gi_workflowUuid := "workflow-1";
     gi_width := 1024;
     gi_height := 768;
     gi_uploadedUrl := UploadedObject "" (Some "https://cdn.example");
     gi_prompt := "a cat" |}.

(** The status endpoint answers with a non-zero code. *)
Definition rejected (k : nat) : axios_result status_data :=
  AxiosResp {| code := 401; msg := "signature expired";
               data := {| generateStatus := None; images := None;
                          failReason := None |} |}.

(** An outside world whose authorization endpoint refuses. *)
Definition refusing : Env :=
  {| Date_now := fun k => (1730000000000 + N.of_nat k)%N;
     random_index := fun k => ((7 * k + 3) mod 62)%nat;
     post_upload_signature := fun _ _ =>
       AxiosResp {| code := 403; msg := "quota exceeded";
                    data := Scenario.authorization |};
     post_comfy_app := fun _ _ => AxiosThrew (JsError "Network Error");
     post_comfy_status := fun _ _ => AxiosThrew (JsError "Network Error");
     fetch := fun _ _ => FetchResp 200 "" |}.

(** An outside world whose object storage refuses the upload. *)
Definition forbidden : Env :=
  {| Date_now := fun k => (1730000000000 + N.of_nat k)%N;
     random_index := fun k => ((7 * k + 3) mod 62)%nat;
     post_upload_signature := fun _ _ =>
       AxiosResp {| code := 0; msg := "success"; data := Scenario.authorization |};
     post_comfy_app := fun _ _ => AxiosThrew (JsError "Network Error");
     post_comfy_status := fun _ _ => AxiosThrew (JsError "Network Error");
     fetch := fun _ _ => FetchResp 403 "AccessDenied" |}.

End Sample.

(* ================================================================== *)
(** * Properties *)

(** ** Strings *)

Lemma prefix_app (p s : string) : String.prefix p (p ++ s) = true.
Proof.
  induction p as [|c p IH]; simpl.
  - destruct s; reflexivity.
  - destruct (ascii_dec c c) as [_|ne]; [exact IH | contradiction].
Qed.

Lemma includes_of_prefix (s p : string) :
  String.prefix p s = true -> Js.includes s p = true.
Proof.
  intros H. destruct s; cbn [Js.includes]; rewrite H; reflexivity.
Qed.

Lemma includes_app (a p b : string) : Js.includes (a ++ p ++ b) p = true.
Proof.
  induction a as [|c a IH]; simpl.
  - apply includes_of_prefix, prefix_app.
  - rewrite IH. apply orb_true_r.
Qed.

Lemma split_dot_not_nil (s : string) : Js.split_dot s <> [].
Proof.
  induction s as [|c s IH]; simpl; [discriminate|].
  destruct (Ascii.eqb c "."); [discriminate|].
  destruct (Js.split_dot s); discriminate.
Qed.

Lemma split_dot_app (a b : string) :
  Js.split_dot (a ++ "." ++ b) = (Js.split_dot a ++ Js.split_dot b)%list.
Proof.
  induction a as [|c a IH]; simpl.
  - reflexivity.
  - simpl in IH. rewrite IH.
    destruct (Ascii.eqb c "."); [reflexivity|].
    pose proof (split_dot_not_nil a) as Hne.
    destruct (Js.split_dot a); [contradiction | reflexivity].
Qed.

Lemma pop_app (xs ys : list string) : ys <> [] -> Js.pop (xs ++ ys)%list = Js.pop ys.
Proof.
  intros Hys. induction xs as [|x xs IH]; simpl; [reflexivity|].
  rewrite IH. destruct (xs ++ ys)%list eqn:Happ; [|reflexivity].
  apply app_eq_nil in Happ. destruct Happ; contradiction.
Qed.

(** The last segment of [name.ext] is [ext] when [ext] holds no dot. *)
Lemma pop_split_dot_ext (name ext : string) :
  Js.split_dot ext = [ext] ->
  Js.pop (Js.split_dot (name ++ "." ++ ext)) = Some ext.
Proof.
  intros Hext. rewrite split_dot_app, pop_app; rewrite Hext; [reflexivity | discriminate].
Qed.

Lemma split_dot_dot_free (s : string) :
  string_mem "." s = false -> Js.split_dot s = [s].
Proof.
  induction s as [|c s IH]; cbn [string_mem Js.split_dot]; intros H; [reflexivity|].
  apply orb_false_elim in H. destruct H as [Hc Hs].
  rewrite Hc, (IH Hs). reflexivity.
Qed.

Lemma strip_trailing_char_keep (c x : ascii) (s : string) :
  Ascii.eqb x c = false ->
  Js.strip_trailing_char c (String x s) = String x (Js.strip_trailing_char c s).
Proof.
  intros Hx. simpl. rewrite Hx. destruct (Js.strip_trailing_char c s); reflexivity.
Qed.

(** ** Signer *)

Lemma replace_chain_is_subst (s : string) :
  list_ascii_of_string
    (Js.replace_all_char "/" "_" (Js.replace_all_char "+" "-" s))
  = map url_safe_subst (list_ascii_of_string s).
Proof.
  induction s as [|c s IH]; simpl; [reflexivity|].
  rewrite IH. f_equal. unfold url_safe_subst.
  destruct (Ascii.eqb c "+") eqn:Hplus; [reflexivity | reflexivity].
Qed.

Lemma drop_while_snoc (p : ascii -> bool) (l : list ascii) (x : ascii) :
  drop_while p (l ++ [x])%list =
  match drop_while p l with
  | [] => if p x then [] else [x]
  | r => (r ++ [x])%list
  end.
Proof.
  induction l as [|y l IH]; simpl; [reflexivity|].
  destruct (p y); [exact IH | reflexivity].
Qed.

Lemma strip_trailing_char_spec (c : ascii) (s : string) :
  list_ascii_of_string (Js.strip_trailing_char c s)
  = rev (drop_while (fun x => Ascii.eqb x c) (rev (list_ascii_of_string s))).
Proof.
  induction s as [|x s IH]; simpl; [reflexivity|].
  rewrite drop_while_snoc.
  destruct (Js.strip_trailing_char c s) as [|y r] eqn:Hstrip.
  - simpl in IH.
    destruct (drop_while (fun x0 => Ascii.eqb x0 c) (rev (list_ascii_of_string s)))
      as [|z l] eqn:Hdw.
    + destruct (Ascii.eqb x c); reflexivity.
    + simpl in IH. symmetry in IH. apply app_eq_nil in IH.
      destruct IH as [_ IH]. discriminate.
  - destruct (drop_while (fun x0 => Ascii.eqb x0 c) (rev (list_ascii_of_string s)))
      as [|z l] eqn:Hdw.
    + simpl in IH. discriminate.
    + rewrite rev_app_distr. simpl. f_equal. exact IH.
Qed.

(** The replace chain of [generateUrlSignature] is the spec's encoding. *)
Lemma url_safe_chain_spec (s : string) :
  Js.strip_trailing_char "="
    (Js.replace_all_char "/" "_" (Js.replace_all_char "+" "-" s))
  = spec_url_safe s.
Proof.
  unfold spec_url_safe. rewrite <- replace_chain_is_subst, <- strip_trailing_char_spec.
  symmetry. apply string_of_list_ascii_of_string.
Qed.

Lemma list_ind3 (A : Type) (P : list A -> Prop) :
  P [] ->
  (forall a, P [a]) ->
  (forall a b, P [a; b]) ->
  (forall a b c l, P l -> P (a :: b :: c :: l)) ->
  forall l, P l.
Proof.
  intros H0 H1 H2 H3.
  assert (Hall : forall n l, (List.length l <= n)%nat -> P l).
  { induction n as [|n IH]; intros l Hlen.
    - destruct l; [exact H0 | simpl in Hlen; lia].
    - destruct l as [|a [|b [|c l]]]; auto.
      apply H3, IH. simpl in Hlen. lia. }
  intros l. apply (Hall (List.length l)). lia.
Qed.

Lemma url_safe_chain_cons (c : ascii) (s : string) :
  Js.replace_all_char "/" "_" (Js.replace_all_char "+" "-" (String c s))
  = String (url_safe_subst c)
      (Js.replace_all_char "/" "_" (Js.replace_all_char "+" "-" s)).
Proof.
  simpl. unfold url_safe_subst. destruct (Ascii.eqb c "+"); reflexivity.
Qed.

(** Every character crypto-js emits for a 6-bit group becomes a
    character of the URL-safe alphabet, and none of them is '='. *)
Lemma b64_char_url_safe (i : Z) :
  url_safe_alphabet (url_safe_subst (CryptoJS.b64_char i)) = true
  /\ Ascii.eqb (url_safe_subst (CryptoJS.b64_char i)) "=" = false.
Proof.
  unfold CryptoJS.b64_char.
  assert (Hn : (Z.to_nat (Z.land i 63) < 64)%nat).
  { change 63 with (Z.ones 6). rewrite Z.land_ones by lia.
    pose proof (Z.mod_pos_bound i (2 ^ 6)). lia. }
  generalize dependent (Z.to_nat (Z.land i 63)). intros n Hn.
  do 64 (destruct n as [|n]; [split; reflexivity|]).
  lia.
Qed.

Lemma url_safe_chain_b64_char (i : Z) (s : string) :
  Js.strip_trailing_char "="
    (Js.replace_all_char "/" "_"
       (Js.replace_all_char "+" "-" (String (CryptoJS.b64_char i) s)))
  = String (url_safe_subst (CryptoJS.b64_char i))
      (Js.strip_trailing_char "="
         (Js.replace_all_char "/" "_" (Js.replace_all_char "+" "-" s))).
Proof.
  rewrite url_safe_chain_cons.
  apply strip_trailing_char_keep, b64_char_url_safe.
Qed.

(** The URL-safe form of any base64 text lies in [A-Za-z0-9_-]. *)
Lemma base64_url_safe_alphabet (bs : list Z) :
  string_forall url_safe_alphabet
    (Js.strip_trailing_char "="
       (Js.replace_all_char "/" "_"
          (Js.replace_all_char "+" "-" (CryptoJS.Base64 bs)))) = true.
Proof.
  induction bs as [|b1|b1 b2|b1 b2 b3 bs IH] using list_ind3;
    cbn [CryptoJS.Base64]; cbv zeta;
    repeat rewrite url_safe_chain_b64_char;
    cbn [string_forall];
    repeat (rewrite (proj1 (b64_char_url_safe _)); cbn [andb]).
  - reflexivity.
  - reflexivity.
  - reflexivity.
  - exact IH.
Qed.

Lemma string_forall_not_mem (p : ascii -> bool) (c : ascii) (s : string) :
  p c = false -> string_forall p s = true -> string_mem c s = false.
Proof.
  intros Hc. induction s as [|x s IH]; simpl; [reflexivity|].
  intros Hall. apply andb_prop in Hall. destruct Hall as [Hx Hs].
  rewrite (IH Hs), orb_false_r.
  destruct (Ascii.eqb_spec x c) as [->|]; [congruence | reflexivity].
Qed.

Section SignerFacts.

Variable E : Env.
Variable this : LiblibAIService.

Lemma generateNonce_from_eq (n : nat) :
  forall (acc : string) (w : world),
    generateNonce_from E n acc w = (Ok (nonce_string E n acc (rng_draws w)), drawn n w).
Proof.
  induction n as [|n IH]; intros acc w.
  - destruct w; reflexivity.
  - cbn [generateNonce_from nonce_string]. unfold bind, math_random_index.
    rewrite IH. unfold drawn. cbn [clock_reads rng_draws net_calls trace].
    rewrite Nat.add_succ_r. reflexivity.
Qed.

Lemma generateUrlSignature_eq (path : string) (w : world) :
  generateUrlSignature E this path w = (Ok (url_signature_at E this path w), signed w).
Proof.
  unfold generateUrlSignature, generateNonce, bind, date_now.
  rewrite generateNonce_from_eq. reflexivity.
Qed.

Lemma buildSignatureParams_eq (path : string) (w : world) :
  buildSignatureParams E this path w = (Ok (signature_params_at E this path w), signed w).
Proof.
  unfold buildSignatureParams, bind. rewrite generateUrlSignature_eq. reflexivity.
Qed.

(** C1.  For every path, secret, timestamp and nonce, the signature the
    Signer returns is the HMAC-SHA1 digest of path & timestamp & nonce
    under the shared secret, base64-encoded and made URL-safe in the
    spec's sense ('+' to '-', '/' to '_', trailing '=' dropped); the
    timestamp is the clock reading and the nonce the string drawn; and
    the parameter string carries the access key, that signature, that
    timestamp and that nonce. *)
Theorem signature_is_url_safe_hmac_sha1 (path : string) (w : world) :
  exists s : url_signature,
    generateUrlSignature E this path w = (Ok s, signed w)
    /\ timestamp s = Date_now E (clock_reads w)
    /\ signatureNonce s = nonce_string E 16 "" (rng_draws w)
    /\ signature s
       = spec_signature path (apiSecret this) (timestamp s) (signatureNonce s)
    /\ buildSignatureParams E this path w
       = (Ok ("AccessKey=" ++ apiKey this
              ++ "&Signature=" ++ signature s
              ++ "&Timestamp=" ++ Js.string_of_N (timestamp s)
              ++ "&SignatureNonce=" ++ signatureNonce s),
          signed w).
Proof.
  exists (url_signature_at E this path w).
  split; [apply generateUrlSignature_eq|].
  split; [reflexivity|]. split; [reflexivity|]. split.
  - unfold spec_signature. rewrite <- url_safe_chain_spec. reflexivity.
  - apply buildSignatureParams_eq.
Qed.

(** C9.  For every path, secret, timestamp and nonce, every character of
    the signature lies in [A-Za-z0-9_-]; the signature holds no '+', no
    '/' and no '=' (so no trailing padding). *)
Theorem signature_in_url_safe_alphabet (path : string) (w : world) :
  exists s : url_signature,
    generateUrlSignature E this path w = (Ok s, signed w)
    /\ string_forall url_safe_alphabet (signature s) = true
    /\ string_mem "+" (signature s) = false
    /\ string_mem "/" (signature s) = false
    /\ string_mem "=" (signature s) = false.
Proof.
  exists (url_signature_at E this path w).
  split; [apply generateUrlSignature_eq|].
  assert (Hall : string_forall url_safe_alphabet
                   (signature (url_signature_at E this path w)) = true)
    by apply base64_url_safe_alphabet.
  repeat split; try exact Hall;
    apply (string_forall_not_mem url_safe_alphabet); auto.
Qed.

End SignerFacts.

(** ** JobPoller *)

Section PollerFacts.

Variable E : Env.
Variable this : LiblibAIService.
Variable generateUuid : string.
Variables maxAttempts interval : Z.

Lemma getComfyStatus_eq (w : world) :
  getComfyStatus E this generateUuid w
  = (status_reply
       (post_comfy_status E (net_calls w) (status_request E this generateUuid w)),
     queried E this generateUuid w).
Proof.
  unfold getComfyStatus, try_catch, bind. rewrite buildSignatureParams_eq.
  unfold axios_post, status_reply, queried. cbn [net_calls signed].
  fold (status_request E this generateUuid w).
  destruct (post_comfy_status E (net_calls w) (status_request E this generateUuid w))
    as [t|r]; [reflexivity|].
  destruct (negb (code r =? 0)); reflexivity.
Qed.

Lemma reply_at_0 (w : world) :
  reply_at E this generateUuid interval w 0
  = status_reply
      (post_comfy_status E (net_calls w) (status_request E this generateUuid w)).
Proof. reflexivity. Qed.

Lemma reply_at_S (w : world) (k : nat) :
  reply_at E this generateUuid interval w (S k)
  = reply_at E this generateUuid interval
      (slept interval (queried E this generateUuid w)) k.
Proof. reflexivity. Qed.

Lemma net_calls_queried (w : world) :
  net_calls (queried E this generateUuid w) = S (net_calls w).
Proof. reflexivity. Qed.

Lemma net_calls_slept (w : world) : net_calls (slept interval w) = net_calls w.
Proof. reflexivity. Qed.

Lemma net_calls_polled (k : nat) :
  forall w, net_calls (polled E this generateUuid interval k w) = (net_calls w + k)%nat.
Proof.
  induction k as [|k IH]; intros w; cbn [polled].
  - lia.
  - rewrite IH, net_calls_slept, net_calls_queried. lia.
Qed.

Lemma reaches_run (w0 : world) (n : nat) (attempt : Z) (w : world) :
  reaches E this generateUuid maxAttempts interval w0 n attempt w ->
  waitAppResult E this generateUuid maxAttempts interval w0
  = poll_loop E this n generateUuid attempt maxAttempts interval w.
Proof.
  induction 1 as [|n attempt w w' _ IH Hstep]; [reflexivity|].
  rewrite IH. cbn [poll_loop]. unfold bind. rewrite Hstep. reflexivity.
Qed.

Lemma failure_message_has_marker (st : status_data) :
  has_marker (JsError (failure_message st)) = true.
Proof.
  unfold has_marker, failure_message, message_includes.
  destruct (status_is st GenerateStatus.FAILED).
  - rewrite includes_app. reflexivity.
  - rewrite (includes_app _ "timed out"). apply orb_true_r.
Qed.

Lemma non_terminal_true (st : status_data) :
  non_terminal st = true ->
  status_is st GenerateStatus.SUCCESS = false
  /\ status_is st GenerateStatus.FAILED = false
  /\ status_is st GenerateStatus.TIMEOUT = false.
Proof.
  unfold non_terminal. intros H.
  apply andb_prop in H. destruct H as [H Ht].
  apply andb_prop in H. destruct H as [Hs Hf].
  apply negb_true_iff in Hs, Hf, Ht. auto.
Qed.

(** *** One iteration, by the reply to its status query *)

Lemma iteration_failed (attempt : Z) (w : world) (st : status_data) :
  reply_at E this generateUuid interval w 0 = Ok st ->
  status_is st GenerateStatus.FAILED || status_is st GenerateStatus.TIMEOUT = true ->
  poll_iteration E this generateUuid attempt maxAttempts interval w
  = (Throw (JsError (failure_message st)), queried E this generateUuid w).
Proof.
  intros Hq Hst. rewrite reply_at_0 in Hq.
  unfold poll_iteration, try_catch, poll_try, bind. rewrite getComfyStatus_eq, Hq.
  destruct (status_is st GenerateStatus.SUCCESS) eqn:Hs.
  - exfalso. unfold status_is in *. destruct (generateStatus st) as [n|]; [|discriminate].
    apply Z.eqb_eq in Hs. subst n. discriminate.
  - rewrite Hst. unfold throw, poll_catch.
    fold (failure_message st).
    pose proof (failure_message_has_marker st) as Hm. unfold has_marker in Hm.
    rewrite Hm. reflexivity.
Qed.

Lemma iteration_success (attempt : Z) (w : world) (st : status_data)
  (first : image) (others : list image) :
  reply_at E this generateUuid interval w 0 = Ok st ->
  status_is st GenerateStatus.SUCCESS = true ->
  images st = Some (first :: others) ->
  poll_iteration E this generateUuid attempt maxAttempts interval w
  = (Ok (Some (imageUrl first)), queried E this generateUuid w).
Proof.
  intros Hq Hs Himg. rewrite reply_at_0 in Hq.
  unfold poll_iteration, try_catch, poll_try, bind.
  rewrite getComfyStatus_eq, Hq, Hs, Himg. reflexivity.
Qed.

(** Success without a result: the error raised in the [try] block is
    caught, and swallowed unless this was the last attempt. *)
Lemma iteration_success_empty (attempt : Z) (w : world) (st : status_data) :
  reply_at E this generateUuid interval w 0 = Ok st ->
  status_is st GenerateStatus.SUCCESS = true ->
  images st = None \/ images st = Some [] ->
  poll_iteration E this generateUuid attempt maxAttempts interval w
  = if attempt =? maxAttempts
    then (Throw (JsError "No images found in successful generation result"),
          queried E this generateUuid w)
    else (Ok None, slept interval (queried E this generateUuid w)).
Proof.
  intros Hq Hs Himg. rewrite reply_at_0 in Hq.
  unfold poll_iteration, try_catch, poll_try, bind.
  rewrite getComfyStatus_eq, Hq, Hs.
  destruct Himg as [-> | ->]; unfold throw, poll_catch;
    change (message_includes
              (JsError "No images found in successful generation result") "failed")
      with false;
    change (message_includes
              (JsError "No images found in successful generation result") "timed out")
      with false;
    cbn [orb]; destruct (attempt =? maxAttempts); reflexivity.
Qed.

Lemma iteration_non_terminal (attempt : Z) (w : world) (st : status_data) :
  reply_at E this generateUuid interval w 0 = Ok st ->
  non_terminal st = true ->
  poll_iteration E this generateUuid attempt maxAttempts interval w
  = (Ok None, slept interval (queried E this generateUuid w)).
Proof.
  intros Hq Hn. rewrite reply_at_0 in Hq.
  apply non_terminal_true in Hn. destruct Hn as (Hs & Hf & Ht).
  unfold poll_iteration, try_catch, poll_try, bind.
  rewrite getComfyStatus_eq, Hq, Hs, Hf, Ht. reflexivity.
Qed.

Lemma iteration_error_retried (attempt : Z) (w : world) (t : thrown) :
  reply_at E this generateUuid interval w 0 = Throw t ->
  has_marker t = false ->
  attempt <> maxAttempts ->
  poll_iteration E this generateUuid attempt maxAttempts interval w
  = (Ok None, slept interval (queried E this generateUuid w)).
Proof.
  intros Hq Hm Hne. rewrite reply_at_0 in Hq.
  unfold poll_iteration, try_catch, poll_try, bind.
  rewrite getComfyStatus_eq, Hq. unfold poll_catch.
  unfold has_marker in Hm. rewrite Hm.
  apply Z.eqb_neq in Hne. rewrite Hne. reflexivity.
Qed.

Lemma iteration_error_rethrown (attempt : Z) (w : world) (t : thrown) :
  reply_at E this generateUuid interval w 0 = Throw t ->
  has_marker t = true \/ attempt = maxAttempts ->
  poll_iteration E this generateUuid attempt maxAttempts interval w
  = (Throw t, queried E this generateUuid w).
Proof.
  intros Hq Hor. rewrite reply_at_0 in Hq.
  unfold poll_iteration, try_catch, poll_try, bind.
  rewrite getComfyStatus_eq, Hq. unfold poll_catch.
  fold (has_marker t).
  destruct (has_marker t); [reflexivity|].
  destruct Hor as [Hm | ->]; [discriminate|].
  rewrite Z.eqb_refl. reflexivity.
Qed.

Lemma iteration_keeps_polling (attempt : Z) (w : world) :
  keeps_polling (reply_at E this generateUuid interval w 0) = true ->
  attempt <> maxAttempts ->
  poll_iteration E this generateUuid attempt maxAttempts interval w
  = (Ok None, slept interval (queried E this generateUuid w)).
Proof.
  intros Hk Hne.
  destruct (reply_at E this generateUuid interval w 0) as [st|t] eqn:Hr;
    cbn [keeps_polling] in Hk.
  - apply (iteration_non_terminal attempt w st Hr Hk).
  - apply negb_true_iff in Hk. apply (iteration_error_retried attempt w t Hr Hk Hne).
Qed.

(** *** Runs *)

(** While the replies keep the loop going and attempts remain, the loop
    advances one query and one sleep at a time. *)
Lemma poll_loop_keeps_polling (n : nat) :
  forall (m : nat) (attempt : Z) (w : world),
    (forall k, (k < n)%nat ->
       keeps_polling (reply_at E this generateUuid interval w k) = true) ->
    attempt + Z.of_nat n <= maxAttempts ->
    poll_loop E this (n + m) generateUuid attempt maxAttempts interval w
    = poll_loop E this m generateUuid (attempt + Z.of_nat n) maxAttempts interval
        (polled E this generateUuid interval n w).
Proof.
  induction n as [|n IH]; intros m attempt w Hk Hle.
  - cbn [polled Nat.add]. replace (attempt + Z.of_nat 0) with attempt by lia.
    reflexivity.
  - cbn [Nat.add poll_loop polled]. unfold bind.
    rewrite iteration_keeps_polling; [| apply Hk; lia | lia].
    rewrite IH.
    + f_equal. lia.
    + intros k Hlt. rewrite <- reply_at_S. apply Hk. lia.
    + lia.
Qed.

Lemma poll_loop_continue (n : nat) (attempt : Z) (w w' : world) :
  poll_iteration E this generateUuid attempt maxAttempts interval w = (Ok None, w') ->
  poll_loop E this (S n) generateUuid attempt maxAttempts interval w
  = poll_loop E this n generateUuid (attempt + 1) maxAttempts interval w'.
Proof.
  intros Hstep. cbn [poll_loop]. unfold bind. rewrite Hstep. reflexivity.
Qed.

(** Replies that keep the loop going, then Success with a result while
    attempts remain: the run returns the first result's URL, and the
    query that reported Success is the last thing it did. *)
Lemma retried_then_success (w0 : world) (n : nat) (st : status_data)
  (first : image) (others : list image) :
  (forall k, (k < n)%nat ->
     keeps_polling (reply_at E this generateUuid interval w0 k) = true) ->
  (n < Z.to_nat maxAttempts)%nat ->
  reply_at E this generateUuid interval w0 n = Ok st ->
  status_is st GenerateStatus.SUCCESS = true ->
  images st = Some (first :: others) ->
  waitAppResult E this generateUuid maxAttempts interval w0
  = (Ok (imageUrl first),
     queried E this generateUuid (polled E this generateUuid interval n w0)).
Proof.
  intros Hk Hlt Hr Hs Himg. unfold waitAppResult.
  replace (Z.to_nat maxAttempts) with (n + S (Z.to_nat maxAttempts - S n))%nat by lia.
  rewrite poll_loop_keeps_polling; [| exact Hk | lia].
  cbn [poll_loop]. unfold bind.
  rewrite (iteration_success _ _ st first others);
    [reflexivity | exact Hr | exact Hs | exact Himg].
Qed.

(** A run in which no query answers a terminal status ends with an
    error; if it made all its queries, the error is [exhausted_error]. *)
Lemma poll_loop_no_terminal (n : nat) :
  forall (attempt : Z) (w : world),
    (n = 0%nat \/ attempt + Z.of_nat n = maxAttempts + 1) ->
    (forall k st, (k < n)%nat ->
       reply_at E this generateUuid interval w k = Ok st -> non_terminal st = true) ->
    exists (e : thrown) (wf : world),
      poll_loop E this n generateUuid attempt maxAttempts interval w = (Throw e, wf)
      /\ (net_calls wf = (net_calls w + n)%nat ->
          e = match n with
              | O => JsError "Max polling attempts reached"
              | S last =>
                  match reply_at E this generateUuid interval w last with
                  | Throw t => t
                  | Ok _ => JsError "Max polling attempts reached"
                  end
              end).
Proof.
  induction n as [|n IH]; intros attempt w Hinv Hnt.
  - exists (JsError "Max polling attempts reached"), w. split; reflexivity.
  - destruct Hinv as [Hinv | Hinv]; [discriminate|].
    assert (Hgo : poll_iteration E this generateUuid attempt maxAttempts interval w
                  = (Ok None, slept interval (queried E this generateUuid w)) ->
                  attempt <> maxAttempts
                  \/ (exists st, reply_at E this generateUuid interval w 0 = Ok st) ->
                  exists e wf,
                    poll_loop E this (S n) generateUuid attempt maxAttempts interval w
                    = (Throw e, wf)
                    /\ (net_calls wf = (net_calls w + S n)%nat ->
                        e = match reply_at E this generateUuid interval w n with
                            | Throw t => t
                            | Ok _ => JsError "Max polling attempts reached"
                            end)).
    { intros Hstep Hwhy.
      rewrite (poll_loop_continue _ _ _ _ Hstep).
      destruct (IH (attempt + 1) (slept interval (queried E this generateUuid w)))
        as (e & wf & Hrun & Herr).
      - destruct n; [left; reflexivity | right; lia].
      - intros k st Hlt. rewrite <- reply_at_S. apply Hnt. lia.
      - exists e, wf. split; [exact Hrun|].
        intros Hcalls. rewrite net_calls_slept, net_calls_queried in Herr.
        rewrite Herr by lia.
        destruct n as [|n'].
        + destruct Hwhy as [Hne | [st Hst]]; [lia|]. rewrite Hst. reflexivity.
        + rewrite <- reply_at_S. reflexivity. }
    destruct (reply_at E this generateUuid interval w 0) as [st|t] eqn:Hr.
    + apply Hgo; [|right; exists st; reflexivity].
      apply (iteration_non_terminal attempt w st Hr).
      apply (Hnt 0%nat); [lia | exact Hr].
    + destruct (has_marker t) eqn:Hm;
        [|destruct (Z.eq_dec attempt maxAttempts) as [Heq | Hne]].
      * exists t, (queried E this generateUuid w). split.
        -- cbn [poll_loop]. unfold bind.
           rewrite (iteration_error_rethrown attempt w t Hr) by (left; exact Hm).
           reflexivity.
        -- rewrite net_calls_queried. intros Hcalls.
           assert (n = 0%nat) by lia. subst n. rewrite Hr. reflexivity.
      * exists t, (queried E this generateUuid w). split.
        -- cbn [poll_loop]. unfold bind.
           rewrite (iteration_error_rethrown attempt w t Hr) by (right; exact Heq).
           reflexivity.
        -- intros _. assert (n = 0%nat) by lia. subst n. rewrite Hr. reflexivity.
      * apply Hgo; [|left; exact Hne].
        apply (iteration_error_retried attempt w t Hr Hm Hne).
Qed.

End PollerFacts.

(** ** Uploader *)

Section UploaderFacts.

Variable E : Env.
Variable this : LiblibAIService.

Lemma file_extension_of_suffix (name ext : string) :
  string_mem "." ext = false ->
  ext <> "" ->
  file_extension (name ++ "." ++ ext) = Js.toLowerCase ext.
Proof.
  intros Hfree Hne. unfold file_extension.
  rewrite (pop_split_dot_ext name ext (split_dot_dot_free ext Hfree)).
  destruct ext; [contradiction | reflexivity].
Qed.

Lemma accepted_extension (filename : string) :
  Js.array_includes allowed_extensions (file_extension filename) = true ->
  file_extension filename = "jpg" \/ file_extension filename = "jpeg"
  \/ file_extension filename = "png".
Proof.
  unfold Js.array_includes, allowed_extensions. cbn [existsb].
  intros H. repeat (apply orb_prop in H; destruct H as [H | H]);
    try discriminate; apply String.eqb_eq in H; auto.
Qed.

Lemma normalized_extension_canonical (filename : string) :
  Js.array_includes allowed_extensions (file_extension filename) = true ->
  normalized_extension filename = "jpg" \/ normalized_extension filename = "png".
Proof.
  intros H. unfold normalized_extension.
  destruct (accepted_extension filename H) as [-> | [-> | ->]]; auto.
Qed.

(** [uploadFile] on a filename whose extension is not allowed. *)
Lemma uploadFile_rejected (fileBuffer : list Byte.byte) (filename : string) (w : world) :
  Js.array_includes allowed_extensions (file_extension filename) = false ->
  uploadFile E this fileBuffer filename w
  = (Throw (JsError "文件类型必须是jpg、jpeg或png"), w).
Proof.
  intros H. unfold uploadFile, try_catch. fold (file_extension filename).
  rewrite H. reflexivity.
Qed.

(** [uploadFile] on a filename whose extension is allowed, by the
    answers of the two endpoints. *)
Lemma uploadFile_accepted (fileBuffer : list Byte.byte) (filename : string) (w : world) :
  Js.array_includes allowed_extensions (file_extension filename) = true ->
  let req := authorization_request E this filename w in
  let w1 := log_call (EvPost req) (signed w) in
  uploadFile E this fileBuffer filename w
  = match post_upload_signature E (net_calls w) req with
    | AxiosThrew t => (Throw t, w1)
    | AxiosResp r =>
        if negb (code r =? 0)
        then (Throw (JsError ("获取签名失败: " ++ msg r)), w1)
        else
          let sd := proxied (data r) in
          let up := upload_request fileBuffer sd filename in
          let w2 := log_call (EvFetch up) w1 in
          match fetch E (S (net_calls w)) up with
          | FetchThrew t => (Throw t, w2)
          | FetchResp status text =>
              if (200 <=? status) && (status <? 300)
              then (Ok {| up_key := key sd; up_ossBaseUrl := ossBaseUrl |}, w2)
              else (Throw (JsError ("上传失败，状态码: " ++ Js.string_of_Z status
                                    ++ ", 响应: " ++ text)), w2)
          end
    end.
Proof.
  intros H req w1. unfold uploadFile, try_catch at 1. fold (file_extension filename).
  rewrite H. cbn [negb]. fold (normalized_extension filename) (base_name filename).
  unfold bind at 1. unfold getUploadSignature, try_catch at 1, bind at 1.
  rewrite buildSignatureParams_eq. unfold bind at 1, axios_post.
  cbn [net_calls signed]. fold (authorization_request E this filename w). fold req. fold w1.
  destruct (post_upload_signature E (net_calls w) req) as [t|r]; [reflexivity|].
  destruct (negb (code r =? 0)); [reflexivity|].
  fold (proxied (data r)).
  assert (Hret : forall sd, (if negb (String.eqb (postUrl (data r)) "")
                  then ret sd else ret (data r)) w1
                 = (Ok (if negb (String.eqb (postUrl (data r)) "") then sd else data r), w1)).
  { intros sd. destruct (negb (String.eqb (postUrl (data r)) "")); reflexivity. }
  unfold proxied. rewrite Hret. clear Hret.
  fold (proxied (data r)).
  unfold uploadToOSS, fetch_post, try_catch, bind.
  fold (upload_request fileBuffer (proxied (data r)) filename).
  change (net_calls w1) with (S (net_calls w)).
  destruct (fetch E (S (net_calls w)) (upload_request fileBuffer (proxied (data r)) filename))
    as [t|status text]; [reflexivity|].
  destruct ((200 <=? status) && (status <? 300)); reflexivity.
Qed.

(** The network calls of an accepted upload: the authorization request,
    then at most one upload, of the file under its normalized name. *)
Lemma uploadFile_accepted_trace (fileBuffer : list Byte.byte) (filename : string)
  (w : world) :
  Js.array_includes allowed_extensions (file_extension filename) = true ->
  exists rest : list event,
    trace (snd (uploadFile E this fileBuffer filename w))
    = (trace w ++ EvPost (authorization_request E this filename w) :: rest)%list
    /\ (rest = []
        \/ exists sd, rest = [EvFetch (upload_request fileBuffer sd filename)]).
Proof.
  intros H. rewrite (uploadFile_accepted fileBuffer filename w H). cbv zeta.
  destruct (post_upload_signature E (net_calls w) (authorization_request E this filename w))
    as [t|r].
  - exists []. split; [reflexivity | left; reflexivity].
  - destruct (negb (code r =? 0)).
    + exists []. split; [reflexivity | left; reflexivity].
    + exists [EvFetch (upload_request fileBuffer (proxied (data r)) filename)].
      split.
      * destruct (fetch E (S (net_calls w)) _) as [t|status text];
          [|destruct ((200 <=? status) && (status <? 300))];
          cbn [snd trace log_call signed]; rewrite <- app_assoc; reflexivity.
      * right. exists (proxied (data r)). reflexivity.
Qed.

End UploaderFacts.

(** ** JobSubmitter *)

Lemma lookup_update (k : string) (v : value) (ps : list (string * value)) :
  lookup k (update k v ps) = Some v.
Proof.
  induction ps as [|[k' v'] ps IH]; simpl.
  - rewrite String.eqb_refl. reflexivity.
  - destruct (String.eqb k k') eqn:Hk; simpl.
    + rewrite String.eqb_refl. reflexivity.
    + rewrite Hk. exact IH.
Qed.

Lemma get_set_prop (ps : list (string * value)) (k : string) (v : value) :
  get_prop (set_prop (VObj ps) k v) k = v.
Proof. simpl. rewrite lookup_update. reflexivity. Qed.

Lemma get_prop_defined (o : value) (k : string) :
  get_prop o k <> VUndefined -> exists ps, o = VObj ps.
Proof.
  destruct o; simpl; try congruence. intros _. eexists. reflexivity.
Qed.

Lemma length_append (a b : string) :
  String.length (a ++ b) = (String.length a + String.length b)%nat.
Proof.
  induction a as [|c a IH]; simpl; [reflexivity | rewrite IH; reflexivity].
Qed.

Lemma append_longer (a b : string) : a <> "" -> a ++ b <> b.
Proof.
  intros Ha Heq. apply (f_equal String.length) in Heq.
  rewrite length_append in Heq.
  destruct a; [contradiction | simpl in Heq; lia].
Qed.

Section SubmitterFacts.

Variable E : Env.
Variable this : LiblibAIService.

(** Once the parameters are normalized, [runComfy] makes exactly one
    network call, the submission. *)
Lemma runComfy_trace (params params' : comfy_params) (w : world) :
  normalize_image params w = (Ok params', w) ->
  trace (snd (runComfy E this params w))
  = (trace w ++ [EvPost (comfy_request E this params' w)])%list.
Proof.
  intros Hn. unfold runComfy, try_catch, bind. rewrite Hn.
  rewrite buildSignatureParams_eq. unfold axios_post.
  fold (comfy_request E this params' w).
  destruct (post_comfy_app E (net_calls (signed w)) (comfy_request E this params' w))
    as [t|r]; [reflexivity|].
  destruct (negb (code r =? 0)); reflexivity.
Qed.

(** A non-empty string that does not start with "http" is rewritten. *)
Lemma normalize_image_bare_key (params : comfy_params) (w : world) (key : string) :
  image_of params = VStr key ->
  key <> "" ->
  Js.startsWith key "http" = false ->
  exists params',
    normalize_image params w = (Ok params', w)
    /\ image_of params' = VStr (ossBaseUrl ++ "/" ++ key).
Proof.
  unfold image_of. intros Himg Hne Hhttp.
  destruct (get_prop_defined
              (get_prop (get_prop (generateParams params) "190") "inputs") "image")
    as [inputs Hinputs]; [rewrite Himg; discriminate|].
  destruct (get_prop_defined (get_prop (generateParams params) "190") "inputs")
    as [node Hnode]; [rewrite Hinputs; discriminate|].
  destruct (get_prop_defined (generateParams params) "190")
    as [gp Hgp]; [rewrite Hnode; discriminate|].
  eexists. split.
  - unfold normalize_image, bind.
    rewrite Himg, Hinputs, Hnode, Hgp. cbn [truthy andb].
    destruct key as [|c key]; [contradiction|].
    cbn [String.eqb negb]. unfold ret at 1. rewrite Hhttp. cbn [negb].
    reflexivity.
  - cbn [generateParams]. rewrite !get_set_prop. reflexivity.
Qed.

(** The empty string is left as it is: the guard of the block tests the
    image reference for truthiness. *)
Lemma normalize_image_empty (params : comfy_params) (w : world) :
  image_of params = VStr "" ->
  normalize_image params w = (Ok params, w).
Proof.
  unfold image_of, normalize_image. intros Himg. rewrite Himg.
  cbn [truthy String.eqb negb]. rewrite !andb_false_r. reflexivity.
Qed.

End SubmitterFacts.

(* ================================================================== *)
(** * The claims *)

(** ** C2: Failed and Timeout end the polling at once *)

(** C2.  In every polling run, whenever the loop head is reached (at any
    attempt, with any number of attempts left) and the status query made
    there returns a parsed payload reporting Failed or Timeout, the run
    ends with that query: the final world is the one the query left, its
    last event is that query, and the error raised is
    "Image generation failed: <reason>" or "Image generation timed out:
    <reason>", where <reason> is the payload's failure reason
    ("Unknown reason" when it is missing or empty). *)
Theorem failed_or_timeout_stops_polling
  (E : Env) (this : LiblibAIService) (generateUuid : string)
  (maxAttempts interval : Z) (w0 : world) (n : nat) (attempt : Z)
  (w w1 : world) (st : status_data) :
  reaches E this generateUuid maxAttempts interval w0 (S n) attempt w ->
  getComfyStatus E this generateUuid w = (Ok st, w1) ->
  status_is st GenerateStatus.FAILED || status_is st GenerateStatus.TIMEOUT = true ->
  waitAppResult E this generateUuid maxAttempts interval w0
  = (Throw (JsError ("Image generation "
                     ++ (if status_is st GenerateStatus.FAILED
                         then "failed" else "timed out")
                     ++ ": " ++ Js.or_else (failReason st) "Unknown reason")),
     w1)
  /\ trace w1 = (trace w ++ [EvPost (status_request E this generateUuid w)])%list
  /\ net_calls w1 = S (net_calls w).
Proof.
  intros Hreach Hq Hst.
  rewrite getComfyStatus_eq in Hq. injection Hq as Hreply Hw1. subst w1.
  split; [|split; reflexivity].
  rewrite (reaches_run _ _ _ _ _ _ _ _ _ Hreach). cbn [poll_loop]. unfold bind.
  rewrite (iteration_failed E this generateUuid maxAttempts interval attempt w st
             Hreply Hst).
  reflexivity.
Qed.

Lemma failed_or_timeout_stops_polling_witness :
  let E := Scenario.env Scenario.failed_at_2 in
  let w1 := slept 3000 (queried E Scenario.service "job-1" initial_world) in
  waitAppResult E Scenario.service "job-1" 60 3000 initial_world
  = (Throw (JsError "Image generation failed: content rejected"),
     queried E Scenario.service "job-1" w1)
  /\ net_calls (queried E Scenario.service "job-1" w1) = 2%nat.
Proof.
  intros E w1.
  destruct (failed_or_timeout_stops_polling E Scenario.service "job-1" 60 3000
              initial_world 58 2 w1 (queried E Scenario.service "job-1" w1)
              {| generateStatus := Some GenerateStatus.FAILED; images := None;
                 failReason := Some "content rejected" |})
    as (Hrun & _ & Hcalls).
  - change 2 with (1 + 1).
    apply (reaches_next E Scenario.service "job-1" 60 3000 initial_world 59 1
             initial_world w1).
    + exact (reaches_first E Scenario.service "job-1" 60 3000 initial_world).
    + vm_compute. reflexivity.
  - vm_compute. reflexivity.
  - reflexivity.
  - split; [exact Hrun | exact Hcalls].
Defined.

(** Success with a result ends the polling as well: the run returns the
    first result's URL and does nothing after that query. *)
Lemma success_stops_polling
  (E : Env) (this : LiblibAIService) (generateUuid : string)
  (maxAttempts interval : Z) (w0 : world) (n : nat) (attempt : Z)
  (w : world) (st : status_data) (first : image) (others : list image) :
  reaches E this generateUuid maxAttempts interval w0 (S n) attempt w ->
  reply_at E this generateUuid interval w 0 = Ok st ->
  status_is st GenerateStatus.SUCCESS = true ->
  images st = Some (first :: others) ->
  waitAppResult E this generateUuid maxAttempts interval w0
  = (Ok (imageUrl first), queried E this generateUuid w).
Proof.
  intros Hreach Hreply Hs Himg.
  rewrite (reaches_run _ _ _ _ _ _ _ _ _ Hreach). cbn [poll_loop]. unfold bind.
  rewrite (iteration_success E this generateUuid maxAttempts interval attempt w st
             first others Hreply Hs Himg).
  reflexivity.
Qed.

(** The run over Pending, Processing, Success returns the result's URL
    after exactly three status queries. *)
Lemma done_at_3_returns_after_three_polls :
  let run :=
    waitAppResult (Scenario.env Scenario.done_at_3) Scenario.service
      "job-1" 60 3000 initial_world in
  fst run = Ok Scenario.result_url /\ net_calls (snd run) = 3%nat.
Proof. vm_compute. split; reflexivity. Qed.

(** ** C3: Success without a result *)

(** Before the last attempt, a Success payload without a result does not
    end the run: the loop head is reached again, after a sleep. *)
Lemma success_without_result_polls_again
  (E : Env) (this : LiblibAIService) (generateUuid : string)
  (maxAttempts interval : Z) (w0 : world) (n : nat) (attempt : Z)
  (w : world) (st : status_data) :
  reaches E this generateUuid maxAttempts interval w0 (S n) attempt w ->
  reply_at E this generateUuid interval w 0 = Ok st ->
  status_is st GenerateStatus.SUCCESS = true ->
  images st = None \/ images st = Some [] ->
  attempt <> maxAttempts ->
  reaches E this generateUuid maxAttempts interval w0 n (attempt + 1)
    (slept interval (queried E this generateUuid w)).
Proof.
  intros Hreach Hreply Hs Himg Hne.
  apply (reaches_next _ _ _ _ _ _ _ _ _ _ Hreach).
  rewrite (iteration_success_empty E this generateUuid maxAttempts interval attempt w st
             Hreply Hs Himg).
  apply Z.eqb_neq in Hne. rewrite Hne. reflexivity.
Qed.

(** C3.  The claim says that once a terminal status is observed no
    further status query is issued, and that Success with an empty
    result list is an error that does not lead to continued polling.
    The code departs from it: on the run whose first status payload
    reports Success with an empty result list and whose second reports
    Success with one result (maxAttempts = 60), the poller raises
    nothing at the first payload, issues a second status query and
    returns the second payload's URL. *)
Theorem success_without_result_keeps_polling :
  let run :=
    waitAppResult (Scenario.env Scenario.empty_then_result) Scenario.service
      "job-1" 60 3000 initial_world in
  fst run = Ok Scenario.result_url /\ net_calls (snd run) = 2%nat.
Proof. vm_compute. split; reflexivity. Qed.

(** ** C4: errors of the status call *)

(** C4.  The claim says that a failure of the status call itself is
    retried up to the attempt ceiling.  The code departs from it when
    the error's message contains "failed" or "timed out": on the run
    whose first status call is rejected with axios's "Request failed
    with status code 502" and whose second would report Success with a
    result (maxAttempts = 60), the poller re-raises the first error
    after one query and never makes the second. *)
Theorem transport_error_with_marker_not_retried :
  let run :=
    waitAppResult (Scenario.env Scenario.bad_gateway_then_result) Scenario.service
      "job-1" 60 3000 initial_world in
  fst run = Throw (JsError "Request failed with status code 502")
  /\ net_calls (snd run) = 1%nat.
Proof. vm_compute. split; reflexivity. Qed.

(** The rejection [getComfyStatus] itself raises for a non-zero code is
    one of these errors, whatever the message of the answer. *)
Lemma query_failed_has_marker (m : string) :
  has_marker (JsError ("Query failed: " ++ m)) = true.
Proof.
  unfold has_marker, message_includes.
  change ("Query failed: " ++ m) with ("Query " ++ "failed" ++ ": " ++ m).
  rewrite includes_app. reflexivity.
Qed.

(** Errors without "failed" or "timed out" are retried: fifty-nine
    network errors and Success at attempt 60 of 60 return the result. *)
Lemma network_errors_are_retried :
  let run :=
    waitAppResult (Scenario.env Scenario.network_errors_then_result) Scenario.service
      "job-1" 60 3000 initial_world in
  fst run = Ok Scenario.result_url /\ net_calls (snd run) = 60%nat.
Proof.
  cbv zeta.
  rewrite (retried_then_success (Scenario.env Scenario.network_errors_then_result)
             Scenario.service "job-1" 60 3000 initial_world 59
             {| generateStatus := Some GenerateStatus.SUCCESS;
                images := Scenario.one_result; failReason := None |}
             {| imageUrl := Scenario.result_url |} []).
  - split; [reflexivity|]. cbn [snd]. rewrite net_calls_queried, net_calls_polled.
    reflexivity.
  - intros k Hk. unfold reply_at. rewrite net_calls_polled.
    cbn [post_comfy_status Scenario.env initial_world net_calls Nat.add].
    unfold Scenario.network_errors_then_result.
    apply Nat.ltb_lt in Hk. rewrite Hk. reflexivity.
  - vm_compute. lia.
  - unfold reply_at. rewrite net_calls_polled. reflexivity.
  - reflexivity.
  - reflexivity.
Qed.

(** ** C5: exhausting the attempt ceiling *)

(** C5 does not hold as stated: with maxAttempts = 1 and a status call
    that fails with "Network Error", the run exhausts the ceiling
    without a terminal state and raises "Network Error", the error of
    the last attempt, not "Max polling attempts reached". *)
Lemma max_attempts_claim_counterexample : ~ max_attempts_claim.
Proof.
  intros Hclaim.
  specialize (Hclaim (Scenario.env Scenario.network_down) Scenario.service
                "job-1" 1 3000 initial_world).
  assert (Hrun : fst (waitAppResult (Scenario.env Scenario.network_down)
                        Scenario.service "job-1" 1 3000 initial_world)
                 = Throw (JsError "Network Error"))
    by (vm_compute; reflexivity).
  rewrite Hrun in Hclaim.
  assert (Hbad : Throw (A := string) (JsError "Network Error")
                 = Throw (JsError "Max polling attempts reached")).
  { apply Hclaim. split.
    - vm_compute. reflexivity.
    - intros k st _ Hreply. unfold reply_at in Hreply.
      cbn [post_comfy_status Scenario.env Scenario.network_down status_reply] in Hreply.
      discriminate. }
  discriminate.
Qed.

(** C5, amended.  Every polling run that exhausts the attempt ceiling
    without reaching a terminal state ends with an error and never
    returns a success value: the error is "Max polling attempts reached"
    when the last attempt received a (non-terminal) payload or when
    maxAttempts is below 1, and it is the error of the last status call
    when that call failed. *)
Theorem exhausted_polling_raises
  (E : Env) (this : LiblibAIService) (generateUuid : string)
  (maxAttempts interval : Z) (w0 : world) :
  exhausts_without_terminal E this generateUuid maxAttempts interval w0 ->
  fst (waitAppResult E this generateUuid maxAttempts interval w0)
  = Throw (match Z.to_nat maxAttempts with
           | O => JsError "Max polling attempts reached"
           | S last =>
               match reply_at E this generateUuid interval w0 last with
               | Throw t => t
               | Ok _ => JsError "Max polling attempts reached"
               end
           end).
Proof.
  intros [Hcalls Hnt]. unfold waitAppResult in *.
  destruct (poll_loop_no_terminal E this generateUuid maxAttempts interval
              (Z.to_nat maxAttempts) 1 w0) as (e & wf & Hrun & Herr).
  - destruct (Z.to_nat maxAttempts) eqn:Hn; [left; reflexivity | right; lia].
  - exact Hnt.
  - rewrite Hrun in *. cbn [fst snd] in *. rewrite (Herr Hcalls). reflexivity.
Qed.

Lemma exhausted_polling_raises_witness :
  exhausts_without_terminal (Scenario.env Scenario.always_processing)
    Scenario.service "job-1" 3 3000 initial_world
  /\ fst (waitAppResult (Scenario.env Scenario.always_processing)
            Scenario.service "job-1" 3 3000 initial_world)
     = Throw (JsError "Max polling attempts reached").
Proof.
  assert (Hex : exhausts_without_terminal (Scenario.env Scenario.always_processing)
                  Scenario.service "job-1" 3 3000 initial_world).
  { split.
    - vm_compute. reflexivity.
    - intros k st _ Hreply. unfold reply_at in Hreply.
      cbn [post_comfy_status Scenario.env Scenario.always_processing] in Hreply.
      injection Hreply as <-. reflexivity. }
  split; [exact Hex|].
  exact (exhausted_polling_raises (Scenario.env Scenario.always_processing)
           Scenario.service "job-1" 3 3000 initial_world Hex).
Defined.

(** ** C6: bare storage keys *)

(** C6 does not hold as stated: the empty string does not start with
    "http", and it is submitted as it is. *)
Lemma bare_key_claim_counterexample : ~ bare_key_claim.
Proof.
  intros Hclaim.
  destruct (Hclaim (Scenario.env Scenario.always_processing) Scenario.service
              (Scenario.params_with_image (VStr "")) initial_world ""
              eq_refl eq_refl)
    as (req & params' & Htrace & Hdata & Himg).
  rewrite (runComfy_trace _ _ _ (Scenario.params_with_image (VStr "")))
    in Htrace by (apply normalize_image_empty; reflexivity).
  apply app_inv_head in Htrace. injection Htrace as <-.
  cbn [req_data comfy_request] in Hdata. injection Hdata as <-.
  discriminate.
Qed.

(** C6, amended.  For every submission whose image reference is a
    non-empty string that does not start with "http", the one request
    [runComfy] sends carries, in place of the key, the URL made of the
    storage base address, '/' and the key, and not the bare key. *)
Theorem bare_key_becomes_url
  (E : Env) (this : LiblibAIService) (params : comfy_params) (w : world)
  (key : string) :
  image_of params = VStr key ->
  key <> "" ->
  Js.startsWith key "http" = false ->
  exists (req : proxy_request) (params' : comfy_params),
    trace (snd (runComfy E this params w)) = (trace w ++ [EvPost req])%list
    /\ req_data req = ComfyData params'
    /\ image_of params' = VStr (ossBaseUrl ++ "/" ++ key)
    /\ image_of params' <> VStr key.
Proof.
  intros Himg Hne Hhttp.
  destruct (normalize_image_bare_key params w key Himg Hne Hhttp)
    as (params' & Hnorm & Himg').
  exists (comfy_request E this params' w), params'.
  split; [apply runComfy_trace; exact Hnorm|].
  split; [reflexivity|]. split; [exact Himg'|].
  rewrite Himg'. intros Heq. injection Heq as Heq.
  apply (append_longer (ossBaseUrl ++ "/") key); [discriminate | exact Heq].
Qed.

Lemma bare_key_becomes_url_witness :
  exists (req : proxy_request) (params' : comfy_params),
    trace (snd (runComfy (Scenario.env Scenario.always_processing) Scenario.service
                  (Scenario.params_with_image (VStr "abc123.png")) initial_world))
    = [EvPost req]
    /\ req_data req = ComfyData params'
    /\ image_of params'
       = VStr "https://liblibai-airship-temp.oss-cn-beijing.aliyuncs.com/abc123.png"
    /\ image_of params' <> VStr "abc123.png".
Proof.
  apply (bare_key_becomes_url (Scenario.env Scenario.always_processing)
           Scenario.service (Scenario.params_with_image (VStr "abc123.png"))
           initial_world "abc123.png").
  - reflexivity.
  - discriminate.
  - reflexivity.
Defined.

(** ** C7: extensions outside the allow-list *)

(** C7 does not hold as stated: the filename "photo." has the empty
    extension, which is outside {jpg, jpeg, png}, and [uploadFile]
    accepts it (it takes "png" in its place) and goes on to the
    network. *)
Lemma extension_claim_counterexample : ~ extension_claim.
Proof.
  intros Hclaim.
  specialize (Hclaim (Scenario.env Scenario.always_processing) Scenario.service []
                "photo" "" initial_world eq_refl eq_refl).
  assert (Hrun : net_calls (snd (uploadFile (Scenario.env Scenario.always_processing)
                                   Scenario.service [] "photo." initial_world))
                 = 2%nat)
    by (vm_compute; reflexivity).
  change ("photo" ++ "." ++ "") with "photo." in Hclaim.
  rewrite Hclaim in Hrun. discriminate.
Qed.

(** C7, amended.  For every file upload whose filename's last
    '.'-separated segment (the whole filename when it has no dot) is
    non-empty and, in lower case, outside {jpg, jpeg, png},
    [uploadFile] raises the validation error in the world it was called
    in: the authorization request is not made, the storage upload is not
    made, and nothing is added to the log of network calls. *)
Theorem unlisted_extension_rejected_before_network
  (E : Env) (this : LiblibAIService) (fileBuffer : list Byte.byte)
  (filename ext : string) (w : world) :
  string_mem "." ext = false ->
  ext <> "" ->
  (filename = ext \/ exists name, filename = name ++ "." ++ ext) ->
  Js.array_includes allowed_extensions (Js.toLowerCase ext) = false ->
  uploadFile E this fileBuffer filename w
  = (Throw (JsError "文件类型必须是jpg、jpeg或png"), w)
  /\ trace (snd (uploadFile E this fileBuffer filename w)) = trace w
  /\ net_calls (snd (uploadFile E this fileBuffer filename w)) = net_calls w.
Proof.
  intros Hfree Hne Hshape Hrej.
  assert (Hext : file_extension filename = Js.toLowerCase ext).
  { destruct Hshape as [-> | [name ->]].
    - unfold file_extension. rewrite (split_dot_dot_free ext Hfree).
      cbn [Js.pop option_map]. destruct ext; [contradiction | reflexivity].
    - apply file_extension_of_suffix; assumption. }
  rewrite (uploadFile_rejected E this fileBuffer filename w)
    by (rewrite Hext; exact Hrej).
  repeat split.
Qed.

Lemma unlisted_extension_rejected_before_network_witness :
  uploadFile (Scenario.env Scenario.always_processing) Scenario.service []
    "photo.gif" initial_world
  = (Throw (JsError "文件类型必须是jpg、jpeg或png"), initial_world).
Proof.
  apply (unlisted_extension_rejected_before_network
           (Scenario.env Scenario.always_processing) Scenario.service []
           "photo.gif" "gif" initial_world).
  - reflexivity.
  - discriminate.
  - right. exists "photo". reflexivity.
  - reflexivity.
Defined.

(** ** C8: normalized extensions *)

Lemma upload_file_name (fileBuffer : list Byte.byte) (sd : signature_data)
  (filename : string) :
  Js.array_includes allowed_extensions (file_extension filename) = true ->
  oss_file_name (upload_request fileBuffer sd filename)
  = base_name filename ++ "." ++ normalized_extension filename
  /\ Js.pop (Js.split_dot (oss_file_name (upload_request fileBuffer sd filename)))
     = Some (normalized_extension filename)
  /\ oss_file_type (upload_request fileBuffer sd filename)
     = content_type_of (Some (normalized_extension filename)).
Proof.
  intros H. cbn [oss_file_name oss_file_type upload_request].
  assert (Hpop : Js.pop (Js.split_dot
                           (base_name filename ++ "." ++ normalized_extension filename))
                 = Some (normalized_extension filename)).
  { apply pop_split_dot_ext.
    destruct (normalized_extension_canonical filename H) as [-> | ->]; reflexivity. }
  split; [reflexivity|]. split; [exact Hpop|].
  rewrite Hpop.
  destruct (normalized_extension_canonical filename H) as [-> | ->]; reflexivity.
Qed.



(** ** C10: an empty last segment *)

(** C10.  For a filename whose last '.'-separated segment is empty (the
    empty filename, or one that ends with a dot such as "photo."),
    [uploadFile] does not raise the extension validation error: the
    extension is "png" and the upload proceeds as a png file.  The
    authorization is requested for extension "png"; if it is granted
    (code 0) the file is posted to object storage under the name
    <base>.png with type image/png; and the run returns the object key
    when storage answers 2xx.  The only errors are those of the two
    network calls. *)
Theorem empty_extension_defaults_to_png
  (E : Env) (this : LiblibAIService) (fileBuffer : list Byte.byte)
  (filename : string) (w : world) :
  (filename = "" \/ exists stem, filename = stem ++ ".") ->
  file_extension filename = "png"
  /\ (let req :=
        {| req_url := proxyURL this;
           req_path := "/api/generate/upload/signature";
           req_signatureParams :=
             signature_params_at E this "/api/generate/upload/signature" w;
           req_data := UploadSignatureData (base_name filename) "png" |} in
      let w1 := log_call (EvPost req) (signed w) in
      uploadFile E this fileBuffer filename w
      = match post_upload_signature E (net_calls w) req with
        | AxiosThrew t => (Throw t, w1)
        | AxiosResp r =>
            if negb (code r =? 0)
            then (Throw (JsError ("获取签名失败: " ++ msg r)), w1)
            else
              let sd := proxied (data r) in
              let up :=
                {| oss_url := postUrl sd;
                   oss_fields :=
                     [ ("key", key sd);
                       ("policy", policy sd);
                       ("x-oss-signature", xOssSignature sd);
                       ("x-oss-credential", xOssCredential sd);
                       ("x-oss-date", xOssDate sd);
                       ("x-oss-expires", Js.string_of_Z (xOssExpires sd));
                       ("x-oss-signature-version", xOssSignatureVersion sd) ];
                   oss_file_name := base_name filename ++ ".png";
                   oss_file_type := "image/png";
                   oss_file_body := fileBuffer |} in
              let w2 := log_call (EvFetch up) w1 in
              match fetch E (S (net_calls w)) up with
              | FetchThrew t => (Throw t, w2)
              | FetchResp status text =>
                  if (200 <=? status) && (status <? 300)
                  then (Ok {| up_key := key sd; up_ossBaseUrl := ossBaseUrl |}, w2)
                  else (Throw (JsError ("上传失败，状态码: " ++ Js.string_of_Z status
                                        ++ ", 响应: " ++ text)), w2)
              end
        end).
Proof.
  intros Hshape.
  assert (Hlast : Js.pop (Js.split_dot filename) = Some "").
  { destruct Hshape as [-> | [stem ->]]; [reflexivity|].
    apply (pop_split_dot_ext stem ""). reflexivity. }
  assert (Hext : file_extension filename = "png")
    by (unfold file_extension; rewrite Hlast; reflexivity).
  assert (Hnorm : normalized_extension filename = "png")
    by (unfold normalized_extension; rewrite Hext; reflexivity).
  assert (Hacc : Js.array_includes allowed_extensions (file_extension filename) = true)
    by (rewrite Hext; reflexivity).
  split; [exact Hext|]. cbv zeta.
  rewrite (uploadFile_accepted E this fileBuffer filename w Hacc). cbv zeta.
  assert (Hreq : authorization_request E this filename w
                 = {| req_url := proxyURL this;
                      req_path := "/api/generate/upload/signature";
                      req_signatureParams :=
                        signature_params_at E this "/api/generate/upload/signature" w;
                      req_data := UploadSignatureData (base_name filename) "png" |})
    by (unfold authorization_request; rewrite Hnorm; reflexivity).
  rewrite Hreq.
  destruct (post_upload_signature E (net_calls w) _) as [t|r]; [reflexivity|].
  destruct (negb (code r =? 0)); [reflexivity|].
  assert (Hup : upload_request fileBuffer (proxied (data r)) filename
                = {| oss_url := postUrl (proxied (data r));
                     oss_fields :=
                       [ ("key", key (proxied (data r)));
                         ("policy", policy (proxied (data r)));
                         ("x-oss-signature", xOssSignature (proxied (data r)));
                         ("x-oss-credential", xOssCredential (proxied (data r)));
                         ("x-oss-date", xOssDate (proxied (data r)));
                         ("x-oss-expires",
                          Js.string_of_Z (xOssExpires (proxied (data r))));
                         ("x-oss-signature-version",
                          xOssSignatureVersion (proxied (data r))) ];
                     oss_file_name := base_name filename ++ ".png";
                     oss_file_type := "image/png";
                     oss_file_body := fileBuffer |}).
  { unfold upload_request. cbv zeta. rewrite Hnorm.
    rewrite (pop_split_dot_ext (base_name filename) "png" eq_refl). reflexivity. }
  rewrite Hup. reflexivity.
Qed.

Lemma empty_extension_defaults_to_png_witness :
  let run :=
    uploadFile (Scenario.env Scenario.always_processing) Scenario.service []
      "photo." initial_world in
  file_extension "photo." = "png"
  /\ fst run = Ok {| up_key := "uploads/photo"; up_ossBaseUrl := ossBaseUrl |}
  /\ exists (req : proxy_request) (up : oss_request),
       trace (snd run) = [EvPost req; EvFetch up]
       /\ req_data req = UploadSignatureData "photo" "png"
       /\ oss_file_name up = "photo.png"
       /\ oss_file_type up = "image/png".
Proof.
  intros run.
  destruct (empty_extension_defaults_to_png (Scenario.env Scenario.always_processing)
              Scenario.service [] "photo." initial_world
              (or_intror (ex_intro _ "photo" eq_refl)))
    as (Hext & Hrun).
  cbv zeta in Hrun. split; [exact Hext|].
  unfold run. rewrite Hrun.
  split; [reflexivity|].
  eexists. eexists. split; [reflexivity|]. repeat split.
Defined.

(* ================================================================== *)
(** * Further properties of the code *)

(** ** Signer *)

Lemma string_forall_app (p : ascii -> bool) (a b : string) :
  string_forall p (a ++ b) = string_forall p a && string_forall p b.
Proof.
  induction a as [|c a IH]; simpl; [reflexivity|].
  rewrite IH. apply andb_assoc.
Qed.

(** A character of the nonce alphabet, or nothing past its end. *)
Lemma charAt_nonce_chars (i : nat) :
  string_forall alphanumeric (Js.charAt nonce_chars i) = true
  /\ ((i < 62)%nat -> String.length (Js.charAt nonce_chars i) = 1%nat).
Proof.
  unfold Js.charAt.
  do 62 (destruct i as [|i]; [split; reflexivity|]).
  split; [reflexivity | lia].
Qed.

Lemma nonce_string_alphanumeric (E : Env) (n : nat) :
  forall (acc : string) (k : nat),
    string_forall alphanumeric acc = true ->
    string_forall alphanumeric (nonce_string E n acc k) = true.
Proof.
  induction n as [|n IH]; intros acc k Hacc; cbn [nonce_string]; [exact Hacc|].
  apply IH. rewrite string_forall_app, Hacc.
  apply (charAt_nonce_chars (random_index E k)).
Qed.

Lemma nonce_string_length (E : Env) (n : nat) :
  forall (acc : string) (k : nat),
    (forall j, (random_index E j < 62)%nat) ->
    String.length (nonce_string E n acc k) = (String.length acc + n)%nat.
Proof.
  induction n as [|n IH]; intros acc k Hidx; cbn [nonce_string]; [lia|].
  rewrite IH by exact Hidx. rewrite length_append.
  rewrite (proj2 (charAt_nonce_chars (random_index E k)) (Hidx k)). lia.
Qed.

(** X1.  [generateNonce(length)] returns a string of letters and digits
    only; when every index drawn from the random source is below 62, as
    [Math.floor(Math.random() * 62)] is, the string has exactly [length]
    characters.  It draws [length] times and does nothing else. *)
Theorem nonce_is_alphanumeric_of_requested_length
  (E : Env) (length : nat) (w : world) :
  (forall j, (random_index E j < 62)%nat) ->
  exists nonce : string,
    generateNonce E length w = (Ok nonce, drawn length w)
    /\ String.length nonce = length
    /\ string_forall alphanumeric nonce = true.
Proof.
  intros Hidx. exists (nonce_string E length "" (rng_draws w)).
  split; [apply generateNonce_from_eq|]. split.
  - rewrite nonce_string_length by exact Hidx. reflexivity.
  - apply nonce_string_alphanumeric. reflexivity.
Qed.

Lemma nonce_is_alphanumeric_of_requested_length_witness :
  exists nonce : string,
    generateNonce (Scenario.env Scenario.always_processing) 16 initial_world
    = (Ok nonce, drawn 16 initial_world)
    /\ String.length nonce = 16%nat
    /\ string_forall alphanumeric nonce = true.
Proof.
  apply (nonce_is_alphanumeric_of_requested_length
           (Scenario.env Scenario.always_processing) 16 initial_world).
  intros j. cbn [random_index Scenario.env].
  apply Nat.mod_upper_bound. discriminate.
Defined.

Lemma SHA1_length (msg : list Z) : List.length (CryptoJS.SHA1 msg) = 20%nat.
Proof.
  unfold CryptoJS.SHA1.
  destruct (CryptoJS.blocks _ _ _) as [[[[a b] c] d] e]. reflexivity.
Qed.

(** The URL-safe form of the base64 text of twenty bytes. *)
Lemma url_safe_digest_length (bs : list Z) :
  List.length bs = 20%nat ->
  String.length
    (Js.strip_trailing_char "="
       (Js.replace_all_char "/" "_"
          (Js.replace_all_char "+" "-" (CryptoJS.Base64 bs)))) = 27%nat.
Proof.
  intros Hlen.
  do 20 (destruct bs as [|? bs]; [discriminate|]).
  destruct bs; [|discriminate].
  cbn [CryptoJS.Base64]. cbv zeta.
  repeat rewrite url_safe_chain_b64_char.
  reflexivity.
Qed.

(** X2.  Whatever the path, the secret, the clock and the random source,
    the signature has exactly 27 characters: the 20 digest bytes give 28
    base64 characters, the last of which is the one '=' that is
    stripped. *)
Theorem signature_has_27_characters
  (E : Env) (this : LiblibAIService) (path : string) (w : world) :
  exists s : url_signature,
    generateUrlSignature E this path w = (Ok s, signed w)
    /\ String.length (signature s) = 27%nat.
Proof.
  exists (url_signature_at E this path w).
  split; [apply generateUrlSignature_eq|].
  cbn [signature url_signature_at]. apply url_safe_digest_length.
  unfold CryptoJS.HmacSHA1. apply SHA1_length.
Qed.

(** ** JobPoller *)

Section PollerRuns.

Variable E : Env.
Variable this : LiblibAIService.
Variable generateUuid : string.
Variables maxAttempts interval : Z.

(** The three ways an iteration can end: with the first result of a
    Success payload, with an error, or going on after a sleep. *)
Lemma iteration_cases (attempt : Z) (w : world) :
  (exists st first others,
     reply_at E this generateUuid interval w 0 = Ok st
     /\ status_is st GenerateStatus.SUCCESS = true
     /\ images st = Some (first :: others)
     /\ poll_iteration E this generateUuid attempt maxAttempts interval w
        = (Ok (Some (imageUrl first)), queried E this generateUuid w))
  \/ (exists t,
        poll_iteration E this generateUuid attempt maxAttempts interval w
        = (Throw t, queried E this generateUuid w))
  \/ poll_iteration E this generateUuid attempt maxAttempts interval w
     = (Ok None, slept interval (queried E this generateUuid w)).
Proof.
  destruct (reply_at E this generateUuid interval w 0) as [st|t] eqn:Hr.
  - destruct (status_is st GenerateStatus.SUCCESS) eqn:Hs.
    + destruct (images st) as [[|first others]|] eqn:Himg.
      * rewrite (iteration_success_empty E this generateUuid maxAttempts interval
                   attempt w st Hr Hs (or_intror Himg)).
        destruct (attempt =? maxAttempts); [right; left; eexists | right; right];
          reflexivity.
      * left. exists st, first, others. repeat split; try assumption.
        apply (iteration_success E this generateUuid maxAttempts interval
                 attempt w st first others Hr Hs Himg).
      * rewrite (iteration_success_empty E this generateUuid maxAttempts interval
                   attempt w st Hr Hs (or_introl Himg)).
        destruct (attempt =? maxAttempts); [right; left; eexists | right; right];
          reflexivity.
    + destruct (status_is st GenerateStatus.FAILED
                || status_is st GenerateStatus.TIMEOUT) eqn:Hf.
      * right. left. eexists.
        apply (iteration_failed E this generateUuid maxAttempts interval
                 attempt w st Hr Hf).
      * right. right.
        apply (iteration_non_terminal E this generateUuid maxAttempts interval
                 attempt w st Hr).
        apply orb_false_elim in Hf. destruct Hf as [Hf Ht].
        unfold non_terminal. rewrite Hs, Hf, Ht. reflexivity.
  - destruct (has_marker t) eqn:Hm;
      [|destruct (Z.eq_dec attempt maxAttempts) as [Heq | Hne]].
    + right. left. exists t.
      apply (iteration_error_rethrown E this generateUuid maxAttempts interval
               attempt w t Hr (or_introl Hm)).
    + right. left. exists t.
      apply (iteration_error_rethrown E this generateUuid maxAttempts interval
               attempt w t Hr (or_intror Heq)).
    + right. right.
      apply (iteration_error_retried E this generateUuid maxAttempts interval
               attempt w t Hr Hm Hne).
Qed.

(** The three ways a run can end: out of attempts after [n] queries and
    [n] sleeps; with an error right after query [k]; or with the first
    result of the Success payload that answered query [k]. *)
Lemma poll_loop_cases (n : nat) :
  forall (attempt : Z) (w : world),
    poll_loop E this n generateUuid attempt maxAttempts interval w
    = (Throw (JsError "Max polling attempts reached"),
       polled E this generateUuid interval n w)
    \/ (exists k t,
          (k < n)%nat
          /\ poll_loop E this n generateUuid attempt maxAttempts interval w
             = (Throw t,
                queried E this generateUuid (polled E this generateUuid interval k w)))
    \/ (exists k st first others,
          (k < n)%nat
          /\ reply_at E this generateUuid interval w k = Ok st
          /\ status_is st GenerateStatus.SUCCESS = true
          /\ images st = Some (first :: others)
          /\ poll_loop E this n generateUuid attempt maxAttempts interval w
             = (Ok (imageUrl first),
                queried E this generateUuid (polled E this generateUuid interval k w))).
Proof.
  induction n as [|n IH]; intros attempt w.
  - left. reflexivity.
  - destruct (iteration_cases attempt w)
      as [(st & first & others & Hr & Hs & Himg & Hit) | [(t & Hit) | Hit]].
    + right. right. exists 0%nat, st, first, others.
      repeat split; try assumption; [lia|].
      cbn [poll_loop polled]. unfold bind. rewrite Hit. reflexivity.
    + right. left. exists 0%nat, t. split; [lia|].
      cbn [poll_loop polled]. unfold bind. rewrite Hit. reflexivity.
    + rewrite (poll_loop_continue E this generateUuid maxAttempts interval n attempt
                 w _ Hit).
      destruct (IH (attempt + 1) (slept interval (queried E this generateUuid w)))
        as [Hmax | [(k & t & Hk & Hrun) | (k & st & first & others & Hk & Hr & Hs & Himg & Hrun)]].
      * left. exact Hmax.
      * right. left. exists (S k), t. split; [lia | exact Hrun].
      * right. right. exists (S k), st, first, others.
        repeat split; try assumption. lia.
Qed.

Lemma polled_events (k : nat) :
  forall w, exists added : list event,
    trace (polled E this generateUuid interval k w) = (trace w ++ added)%list
    /\ Forall (poll_event this generateUuid interval) added.
Proof.
  induction k as [|k IH]; intros w.
  - exists []. split; [symmetry; apply app_nil_r | constructor].
  - destruct (IH (slept interval (queried E this generateUuid w))) as (added & Htr & Hall).
    exists (EvPost (status_request E this generateUuid w) :: EvSleep interval :: added).
    split.
    + cbn [polled]. rewrite Htr.
      cbn [trace slept queried log_event log_call signed].
      rewrite <- !app_assoc. reflexivity.
    + repeat constructor. exact Hall.
Qed.

Lemma queried_events (w0 w : world) (added : list event) :
  trace w = (trace w0 ++ added)%list ->
  Forall (poll_event this generateUuid interval) added ->
  exists added' : list event,
    trace (queried E this generateUuid w) = (trace w0 ++ added')%list
    /\ Forall (poll_event this generateUuid interval) added'.
Proof.
  intros Htr Hall.
  exists (added ++ [EvPost (status_request E this generateUuid w)])%list. split.
  - cbn [trace queried log_call signed]. rewrite Htr, app_assoc. reflexivity.
  - apply Forall_app. split; [exact Hall|]. repeat constructor.
Qed.

Lemma counters_polled (k : nat) :
  forall w,
    clock_reads (polled E this generateUuid interval k w) = (clock_reads w + k)%nat
    /\ rng_draws (polled E this generateUuid interval k w) = (rng_draws w + 16 * k)%nat.
Proof.
  induction k as [|k IH]; intros w; cbn [polled].
  - lia.
  - destruct (IH (slept interval (queried E this generateUuid w))) as [Hc Hr].
    rewrite Hc, Hr.
    cbn [clock_reads rng_draws slept queried log_event log_call signed]. lia.
Qed.

(** X3.  A polling run makes at most [maxAttempts] status queries, and at
    least one when [maxAttempts] is 1 or more; with [maxAttempts] below 1
    it makes none. *)
Theorem polling_makes_at_most_max_attempts_queries (w0 : world) :
  let wf := snd (waitAppResult E this generateUuid maxAttempts interval w0) in
  (net_calls wf <= net_calls w0 + Z.to_nat maxAttempts)%nat
  /\ (net_calls w0 + Nat.min 1 (Z.to_nat maxAttempts) <= net_calls wf)%nat.
Proof.
  cbv zeta. unfold waitAppResult.
  destruct (poll_loop_cases (Z.to_nat maxAttempts) 1 w0)
    as [Hrun | [(k & t & Hk & Hrun) | (k & st & first & others & Hk & _ & _ & _ & Hrun)]];
    rewrite Hrun; cbn [snd];
    rewrite ?net_calls_queried, net_calls_polled; lia.
Qed.

(** X4.  All a polling run adds to the log are status queries for its
    job, sent to the proxy with path /api/generate/comfy/status, and
    sleeps of the polling interval: it uploads nothing and addresses no
    other endpoint. *)
Theorem polling_only_queries_status_and_sleeps (w0 : world) :
  exists added : list event,
    trace (snd (waitAppResult E this generateUuid maxAttempts interval w0))
    = (trace w0 ++ added)%list
    /\ Forall (poll_event this generateUuid interval) added.
Proof.
  unfold waitAppResult.
  destruct (poll_loop_cases (Z.to_nat maxAttempts) 1 w0)
    as [Hrun | [(k & t & Hk & Hrun) | (k & st & first & others & Hk & _ & _ & _ & Hrun)]];
    rewrite Hrun; cbn [snd].
  - apply polled_events.
  - destruct (polled_events k w0) as (added & Htr & Hall).
    apply (queried_events w0 _ added Htr Hall).
  - destruct (polled_events k w0) as (added & Htr & Hall).
    apply (queried_events w0 _ added Htr Hall).
Qed.

(** X5.  When a polling run returns a value, that value is the URL of the
    first result of a Success payload, the payload that answered the
    run's last status query; the run made query number [k] within its
    budget and did nothing after it. *)
Theorem polling_success_comes_from_success_payload (w0 wf : world) (url : string) :
  waitAppResult E this generateUuid maxAttempts interval w0 = (Ok url, wf) ->
  exists (k : nat) (st : status_data) (first : image) (others : list image),
    (k < Z.to_nat maxAttempts)%nat
    /\ reply_at E this generateUuid interval w0 k = Ok st
    /\ status_is st GenerateStatus.SUCCESS = true
    /\ images st = Some (first :: others)
    /\ url = imageUrl first
    /\ wf = queried E this generateUuid (polled E this generateUuid interval k w0)
    /\ net_calls wf = (net_calls w0 + S k)%nat.
Proof.
  unfold waitAppResult. intros Hrun.
  destruct (poll_loop_cases (Z.to_nat maxAttempts) 1 w0)
    as [Hc | [(k & t & Hk & Hc) | (k & st & first & others & Hk & Hr & Hs & Himg & Hc)]];
    rewrite Hc in Hrun; try discriminate.
  injection Hrun as <- <-.
  exists k, st, first, others. repeat split; try assumption.
  rewrite net_calls_queried, net_calls_polled. lia.
Qed.

Lemma posted_app (a b : list event) :
  posted (a ++ b) = (posted a ++ posted b)%list.
Proof.
  induction a as [|[r|r|ms] a IH]; cbn [posted app]; rewrite ?IH; reflexivity.
Qed.

(** The signature parameters of a request depend on the world through
    its clock and draw counters only. *)
Lemma signature_params_at_counters (path : string) (w : world) :
  signature_params_at E this path w
  = signature_params_of E this path (clock_reads w) (rng_draws w).
Proof.
  unfold signature_params_at, signature_params_of, spec_signature,
    url_signature_at.
  cbn [signature timestamp signatureNonce].
  rewrite url_safe_chain_spec. reflexivity.
Qed.

(** The status queries logged after [k] iterations that went on. *)
Lemma posted_polled (k : nat) :
  forall w,
    posted (trace (polled E this generateUuid interval k w))
    = (posted (trace w)
       ++ map (fun j => status_request E this generateUuid
                          (polled E this generateUuid interval j w))
            (seq 0 k))%list.
Proof.
  induction k as [|k IH]; intros w.
  - cbn [polled seq map]. symmetry. apply app_nil_r.
  - cbn [polled]. rewrite IH.
    cbn [trace slept queried log_event log_call signed].
    rewrite !posted_app. cbn [posted]. rewrite app_nil_r, <- app_assoc.
    cbn [seq map app polled]. rewrite <- seq_shift, map_map. reflexivity.
Qed.

(** X6.  Every status query of a polling run is signed afresh.  The
    requests the run posts are, in order, one for each query it makes,
    all for its job and to /api/generate/comfy/status; query number [j]
    (from 0) carries the signature parameters made from the [j]-th
    clock reading after those already taken and from the sixteen draws
    of the random source that follow the [16 * j] draws of the earlier
    queries: no query reuses a clock reading or a draw of another. *)
Theorem polling_signs_every_query_afresh (w0 : world) :
  exists queries : nat,
    net_calls (snd (waitAppResult E this generateUuid maxAttempts interval w0))
    = (net_calls w0 + queries)%nat
    /\ posted (trace (snd (waitAppResult E this generateUuid maxAttempts interval w0)))
       = (posted (trace w0)
          ++ map (fun j =>
                    {| req_url := proxyURL this;
                       req_path := "/api/generate/comfy/status";
                       req_signatureParams :=
                         signature_params_of E this "/api/generate/comfy/status"
                           (clock_reads w0 + j) (rng_draws w0 + 16 * j);
                       req_data := StatusData generateUuid |})
               (seq 0 queries))%list.
Proof.
  assert (Hreq : forall j,
             status_request E this generateUuid
               (polled E this generateUuid interval j w0)
             = {| req_url := proxyURL this;
                  req_path := "/api/generate/comfy/status";
                  req_signatureParams :=
                    signature_params_of E this "/api/generate/comfy/status"
                      (clock_reads w0 + j) (rng_draws w0 + 16 * j);
                  req_data := StatusData generateUuid |}).
  { intros j. unfold status_request. rewrite signature_params_at_counters.
    destruct (counters_polled j w0) as [-> ->]. reflexivity. }
  unfold waitAppResult.
  destruct (poll_loop_cases (Z.to_nat maxAttempts) 1 w0)
    as [Hrun | [(k & t & Hk & Hrun) | (k & st & first & others & Hk & _ & _ & _ & Hrun)]];
    rewrite Hrun; cbn [snd].
  - exists (Z.to_nat maxAttempts). split; [apply net_calls_polled|].
    rewrite posted_polled. f_equal. apply map_ext. exact Hreq.
  - exists (S k). split; [rewrite net_calls_queried, net_calls_polled; lia|].
    cbn [trace queried log_call signed]. rewrite posted_app, posted_polled.
    cbn [posted]. rewrite seq_S, map_app, <- app_assoc. cbn [map Nat.add].
    rewrite <- Hreq. f_equal. f_equal. apply map_ext. exact Hreq.
  - exists (S k). split; [rewrite net_calls_queried, net_calls_polled; lia|].
    cbn [trace queried log_call signed]. rewrite posted_app, posted_polled.
    cbn [posted]. rewrite seq_S, map_app, <- app_assoc. cbn [map Nat.add].
    rewrite <- Hreq. f_equal. f_equal. apply map_ext. exact Hreq.
Qed.

(** X7.  An answer of the status endpoint with a non-zero code ends the
    run at once, at any attempt: the run raises "Query failed: <msg>"
    in the world that query left, and no further query is made. *)
Theorem non_zero_code_ends_polling
  (w0 : world) (n : nat) (attempt : Z) (w : world)
  (r : axios_response status_data) :
  reaches E this generateUuid maxAttempts interval w0 (S n) attempt w ->
  post_comfy_status E (net_calls w) (status_request E this generateUuid w)
  = AxiosResp r ->
  code r <> 0 ->
  waitAppResult E this generateUuid maxAttempts interval w0
  = (Throw (JsError ("Query failed: " ++ msg r)), queried E this generateUuid w).
Proof.
  intros Hreach Hans Hcode.
  rewrite (reaches_run _ _ _ _ _ _ _ _ _ Hreach). cbn [poll_loop]. unfold bind.
  rewrite (iteration_error_rethrown E this generateUuid maxAttempts interval attempt w
             (JsError ("Query failed: " ++ msg r))).
  - reflexivity.
  - rewrite reply_at_0, Hans. cbn [status_reply].
    apply Z.eqb_neq in Hcode. rewrite Hcode. reflexivity.
  - left. apply query_failed_has_marker.
Qed.

End PollerRuns.

Lemma polling_success_comes_from_success_payload_witness :
  exists (k : nat) (st : status_data) (first : image) (others : list image),
    (k < 60)%nat
    /\ reply_at (Scenario.env Scenario.done_at_3) Scenario.service "job-1" 3000
         initial_world k = Ok st
    /\ status_is st GenerateStatus.SUCCESS = true
    /\ images st = Some (first :: others)
    /\ Scenario.result_url = imageUrl first.
Proof.
  destruct (polling_success_comes_from_success_payload
              (Scenario.env Scenario.done_at_3) Scenario.service "job-1" 60 3000
              initial_world
              (snd (waitAppResult (Scenario.env Scenario.done_at_3) Scenario.service
                      "job-1" 60 3000 initial_world))
              Scenario.result_url)
    as (k & st & first & others & Hk & Hr & Hs & Himg & Hurl & _).
  - vm_compute. reflexivity.
  - exists k, st, first, others. repeat split; assumption.
Defined.

Lemma non_zero_code_ends_polling_witness :
  waitAppResult (Scenario.env Sample.rejected) Scenario.service "job-1" 60 3000
    initial_world
  = (Throw (JsError "Query failed: signature expired"),
     queried (Scenario.env Sample.rejected) Scenario.service "job-1" initial_world).
Proof.
  apply (non_zero_code_ends_polling (Scenario.env Sample.rejected) Scenario.service
           "job-1" 60 3000 initial_world 59 1 initial_world
           {| code := 401; msg := "signature expired";
              data := {| generateStatus := None; images := None;
                         failReason := None |} |}).
  - exact (reaches_first (Scenario.env Sample.rejected) Scenario.service "job-1"
             60 3000 initial_world).
  - reflexivity.
  - discriminate.
Defined.

(** ** Uploader *)

Lemma replace_first_prefix (pat rep rest : string) :
  Js.replace_first pat rep (pat ++ rest) = rep ++ rest.
Proof.
  assert (Hdrop : forall p, Js.drop (String.length p) (p ++ rest) = rest).
  { induction p as [|c p IH]; [destruct rest; reflexivity | exact IH]. }
  destruct (pat ++ rest) eqn:Heq; cbn [Js.replace_first];
    rewrite <- Heq, prefix_app, Hdrop; reflexivity.
Qed.

Lemma replace_first_absent (pat rep s : string) :
  Js.includes s pat = false -> Js.replace_first pat rep s = s.
Proof.
  induction s as [|c s IH]; cbn [Js.includes Js.replace_first]; intros H;
    apply orb_false_elim in H; destruct H as [Hp Hs]; rewrite Hp; [reflexivity|].
  rewrite (IH Hs). reflexivity.
Qed.

Lemma string_mem_app (c : ascii) (a b : string) :
  string_mem c (a ++ b) = string_mem c a || string_mem c b.
Proof.
  induction a as [|x a IH]; simpl; [reflexivity|].
  rewrite IH. apply orb_assoc.
Qed.

Section UploaderRuns.

Variable E : Env.
Variable this : LiblibAIService.

Lemma getUploadSignature_eq (filename extension : string) (w : world) :
  getUploadSignature E this filename extension w
  = match post_upload_signature E (net_calls w)
            (signature_request E this filename extension w) with
    | AxiosThrew t =>
        (Throw t,
         log_call (EvPost (signature_request E this filename extension w)) (signed w))
    | AxiosResp r =>
        if negb (code r =? 0)
        then (Throw (JsError ("获取签名失败: " ++ msg r)),
              log_call (EvPost (signature_request E this filename extension w))
                (signed w))
        else (Ok (proxied (data r)),
              log_call (EvPost (signature_request E this filename extension w))
                (signed w))
    end.
Proof.
  unfold getUploadSignature, try_catch, bind. rewrite buildSignatureParams_eq.
  unfold axios_post. cbn [net_calls signed].
  fold (signature_request E this filename extension w).
  destruct (post_upload_signature E (net_calls w)
              (signature_request E this filename extension w)) as [t|r];
    [reflexivity|].
  destruct (negb (code r =? 0)); [reflexivity|].
  unfold proxied.
  destruct (negb (String.eqb (postUrl (data r)) "")); reflexivity.
Qed.

(** X8.  When the authorization endpoint answers with code 0 and an
    upload address under the storage base address, [getUploadSignature]
    hands on the authorization with the base address replaced by
    /oss-proxy, keeps the address it received as [originalPostUrl], and
    leaves the object key and the policy fields as they were. *)
Theorem upload_address_goes_through_proxy
  (filename extension : string) (w : world)
  (r : axios_response signature_data) (rest : string) :
  post_upload_signature E (net_calls w) (signature_request E this filename extension w)
  = AxiosResp r ->
  code r = 0 ->
  postUrl (data r) = ossBaseUrl ++ rest ->
  exists sd : signature_data,
    fst (getUploadSignature E this filename extension w) = Ok sd
    /\ postUrl sd = "/oss-proxy" ++ rest
    /\ originalPostUrl sd = Some (ossBaseUrl ++ rest)
    /\ key sd = key (data r)
    /\ policy sd = policy (data r)
    /\ xOssSignature sd = xOssSignature (data r)
    /\ xOssCredential sd = xOssCredential (data r)
    /\ xOssDate sd = xOssDate (data r)
    /\ xOssExpires sd = xOssExpires (data r)
    /\ xOssSignatureVersion sd = xOssSignatureVersion (data r).
Proof.
  intros Hans Hcode Hurl.
  rewrite getUploadSignature_eq, Hans, Hcode. cbn [Z.eqb negb fst].
  exists (proxied (data r)). split; [reflexivity|].
  unfold proxied. rewrite Hurl.
  assert (Hne : String.eqb (ossBaseUrl ++ rest) "" = false) by reflexivity.
  rewrite Hne. cbn [negb postUrl originalPostUrl key policy xOssSignature
                    xOssCredential xOssDate xOssExpires xOssSignatureVersion].
  split; [apply (replace_first_prefix ossBaseUrl "/oss-proxy" rest)|].
  repeat split.
Qed.

Lemma key_proxied (sd : signature_data) : key (proxied sd) = key sd.
Proof. unfold proxied. destruct (negb (String.eqb (postUrl sd) "")); reflexivity. Qed.

(** X9.  When [uploadFile] returns, the extension was allowed, the
    authorization endpoint had answered with code 0, object storage had
    answered the upload with a 2xx status, exactly two network calls
    were made, and the result is the object key of the authorization
    together with the storage base address. *)
Theorem upload_returns_authorized_key
  (fileBuffer : list Byte.byte) (filename : string) (w w' : world)
  (res : upload_result) :
  uploadFile E this fileBuffer filename w = (Ok res, w') ->
  Js.array_includes allowed_extensions (file_extension filename) = true
  /\ exists (r : axios_response signature_data) (status : Z) (text : string),
       post_upload_signature E (net_calls w) (authorization_request E this filename w)
       = AxiosResp r
       /\ code r = 0
       /\ fetch E (S (net_calls w))
            (upload_request fileBuffer (proxied (data r)) filename)
          = FetchResp status text
       /\ 200 <= status < 300
       /\ res = {| up_key := key (data r); up_ossBaseUrl := ossBaseUrl |}
       /\ net_calls w' = (net_calls w + 2)%nat
       /\ trace w'
          = (trace w
             ++ [EvPost (authorization_request E this filename w);
                 EvFetch (upload_request fileBuffer (proxied (data r)) filename)])%list.
Proof.
  intros Hrun.
  destruct (Js.array_includes allowed_extensions (file_extension filename)) eqn:Hacc.
  - split; [reflexivity|].
    rewrite (uploadFile_accepted E this fileBuffer filename w Hacc) in Hrun.
    cbv zeta in Hrun.
    destruct (post_upload_signature E (net_calls w)
                (authorization_request E this filename w)) as [t|r] eqn:Hans;
      [discriminate|].
    destruct (code r =? 0) eqn:Hcode; cbn [negb] in Hrun; [|discriminate].
    destruct (fetch E (S (net_calls w))
                (upload_request fileBuffer (proxied (data r)) filename))
      as [t|status text] eqn:Hfetch; [discriminate|].
    destruct ((200 <=? status) && (status <? 300)) eqn:Hok; [|discriminate].
    injection Hrun as <- <-.
    exists r, status, text.
    apply andb_prop in Hok. destruct Hok as [Hlo Hhi].
    apply Z.leb_le in Hlo. apply Z.ltb_lt in Hhi. apply Z.eqb_eq in Hcode.
    repeat split; try assumption.
    + rewrite key_proxied. reflexivity.
    + cbn [net_calls log_call signed]. lia.
    + cbn [trace log_call signed]. rewrite <- app_assoc. reflexivity.
  - rewrite (uploadFile_rejected E this fileBuffer filename w Hacc) in Hrun.
    discriminate.
Qed.

(** X10.  For an accepted filename, any upload [uploadFile] makes sends
    the file part with type image/jpeg (extension jpg or jpeg) or
    image/png (extension png), never with the fallback
    application/octet-stream. *)
Theorem upload_content_type_follows_extension
  (fileBuffer : list Byte.byte) (filename : string) (w : world) :
  Js.array_includes allowed_extensions (file_extension filename) = true ->
  exists rest : list event,
    trace (snd (uploadFile E this fileBuffer filename w))
    = (trace w ++ EvPost (authorization_request E this filename w) :: rest)%list
    /\ forall up, In (EvFetch up) rest ->
         oss_file_type up
         = (if String.eqb (file_extension filename) "png"
            then "image/png" else "image/jpeg")
         /\ oss_file_type up <> "application/octet-stream".
Proof.
  intros Hacc.
  destruct (uploadFile_accepted_trace E this fileBuffer filename w Hacc)
    as (rest & Htrace & Hrest).
  exists rest. split; [exact Htrace|].
  intros up Hin. destruct Hrest as [-> | [sd ->]]; [contradiction|].
  destruct Hin as [Heq | []]. injection Heq as <-.
  destruct (upload_file_name fileBuffer sd filename Hacc) as (_ & _ & Htype).
  rewrite Htype. unfold normalized_extension.
  destruct (accepted_extension filename Hacc) as [-> | [-> | ->]];
    split; (reflexivity || discriminate).
Qed.

(** X11.  Only the text before the first dot of the filename survives:
    for an accepted filename [stem.middle] with a non-empty, dot-free
    [stem], authorization is requested for the name [stem], and any
    upload sends the file as [stem.<normalized extension>], whatever
    lies between the first dot and the extension. *)
Theorem upload_name_is_first_segment
  (fileBuffer : list Byte.byte) (stem middle : string) (w : world) :
  string_mem "." stem = false ->
  stem <> "" ->
  Js.array_includes allowed_extensions (file_extension (stem ++ "." ++ middle)) = true ->
  exists (req : proxy_request) (rest : list event),
    trace (snd (uploadFile E this fileBuffer (stem ++ "." ++ middle) w))
    = (trace w ++ EvPost req :: rest)%list
    /\ req_data req
       = UploadSignatureData stem (normalized_extension (stem ++ "." ++ middle))
    /\ forall up, In (EvFetch up) rest ->
         oss_file_name up
         = stem ++ "." ++ normalized_extension (stem ++ "." ++ middle).
Proof.
  intros Hfree Hne Hacc.
  assert (Hbase : base_name (stem ++ "." ++ middle) = stem).
  { unfold base_name. rewrite split_dot_app, (split_dot_dot_free stem Hfree).
    destruct stem; [contradiction | reflexivity]. }
  destruct (uploadFile_accepted_trace E this fileBuffer _ w Hacc)
    as (rest & Htrace & Hrest).
  exists (authorization_request E this (stem ++ "." ++ middle) w), rest.
  split; [exact Htrace|]. split.
  - cbn [req_data authorization_request]. rewrite Hbase. reflexivity.
  - intros up Hin. destruct Hrest as [-> | [sd ->]]; [contradiction|].
    destruct Hin as [Heq | []]. injection Heq as <-.
    destruct (upload_file_name fileBuffer sd _ Hacc) as (Hname & _).
    etransitivity; [exact Hname | rewrite Hbase; reflexivity].
Qed.

(** X12.  The extension check ignores case: for a filename [name.ext]
    whose dot-free, non-empty [ext] is jpg, jpeg or png in any mix of
    upper and lower case, [uploadFile] requests authorization, and it
    requests it for the lower-case extension, jpeg turned into jpg. *)
Theorem upload_extension_is_case_insensitive
  (fileBuffer : list Byte.byte) (name ext : string) (w : world) :
  string_mem "." ext = false ->
  ext <> "" ->
  Js.array_includes allowed_extensions (Js.toLowerCase ext) = true ->
  exists (req : proxy_request) (rest : list event),
    trace (snd (uploadFile E this fileBuffer (name ++ "." ++ ext) w))
    = (trace w ++ EvPost req :: rest)%list
    /\ req_data req
       = UploadSignatureData (base_name (name ++ "." ++ ext))
           (if String.eqb (Js.toLowerCase ext) "jpeg" then "jpg"
            else Js.toLowerCase ext).
Proof.
  intros Hfree Hne Hacc.
  pose proof (file_extension_of_suffix name ext Hfree Hne) as Hext.
  rewrite <- Hext in Hacc.
  destruct (uploadFile_accepted_trace E this fileBuffer _ w Hacc)
    as (rest & Htrace & _).
  exists (authorization_request E this (name ++ "." ++ ext) w), rest.
  split; [exact Htrace|].
  cbn [req_data authorization_request]. unfold normalized_extension.
  rewrite Hext. reflexivity.
Qed.

(** X13.  A filename without any dot is taken as its own extension: a
    non-empty dot-free filename is rejected with the validation error,
    before any network call, unless the whole name is jpg, jpeg or png
    in some mix of upper and lower case. *)
Theorem upload_rejects_name_without_dot
  (fileBuffer : list Byte.byte) (filename : string) (w : world) :
  string_mem "." filename = false ->
  filename <> "" ->
  Js.array_includes allowed_extensions (Js.toLowerCase filename) = false ->
  uploadFile E this fileBuffer filename w
  = (Throw (JsError "文件类型必须是jpg、jpeg或png"), w).
Proof.
  intros Hfree Hne Hrej.
  apply uploadFile_rejected.
  unfold file_extension. rewrite (split_dot_dot_free filename Hfree).
  cbn [Js.pop option_map].
  destruct filename; [contradiction | exact Hrej].
Qed.

End UploaderRuns.

Lemma upload_address_goes_through_proxy_witness :
  exists sd : signature_data,
    fst (getUploadSignature (Scenario.env Scenario.always_processing)
           Scenario.service "photo" "png" initial_world) = Ok sd
    /\ postUrl sd = "/oss-proxy/"
    /\ originalPostUrl sd
       = Some "https://liblibai-airship-temp.oss-cn-beijing.aliyuncs.com/"
    /\ key sd = "uploads/photo".
Proof.
  destruct (upload_address_goes_through_proxy
              (Scenario.env Scenario.always_processing) Scenario.service
              "photo" "png" initial_world
              {| code := 0; msg := "success"; data := Scenario.authorization |} "/"
              eq_refl eq_refl eq_refl)
    as (sd & Hrun & Hurl & Horig & Hkey & _).
  exists sd. repeat split; assumption.
Defined.

Lemma upload_returns_authorized_key_witness :
  let run :=
    uploadFile (Scenario.env Scenario.always_processing) Scenario.service []
      "photo.png" initial_world in
  fst run = Ok {| up_key := "uploads/photo"; up_ossBaseUrl := ossBaseUrl |}
  /\ net_calls (snd run) = 2%nat.
Proof.
  intros run.
  destruct (upload_returns_authorized_key
              (Scenario.env Scenario.always_processing) Scenario.service []
              "photo.png" initial_world (snd run)
              {| up_key := "uploads/photo"; up_ossBaseUrl := ossBaseUrl |})
    as (_ & r & status & text & _ & _ & _ & _ & _ & Hcalls & _).
  - vm_compute. reflexivity.
  - split; [vm_compute; reflexivity | exact Hcalls].
Defined.

Lemma upload_content_type_follows_extension_witness :
  exists rest : list event,
    trace (snd (uploadFile (Scenario.env Scenario.always_processing)
                  Scenario.service [] "photo.jpeg" initial_world))
    = EvPost (authorization_request (Scenario.env Scenario.always_processing)
                Scenario.service "photo.jpeg" initial_world) :: rest
    /\ forall up, In (EvFetch up) rest ->
         oss_file_type up = "image/jpeg"
         /\ oss_file_type up <> "application/octet-stream".
Proof.
  apply (upload_content_type_follows_extension
           (Scenario.env Scenario.always_processing) Scenario.service []
           "photo.jpeg" initial_world).
  reflexivity.
Defined.

Lemma upload_name_is_first_segment_witness :
  exists (req : proxy_request) (rest : list event),
    trace (snd (uploadFile (Scenario.env Scenario.always_processing)
                  Scenario.service [] "my.holiday.photo.PNG" initial_world))
    = EvPost req :: rest
    /\ req_data req = UploadSignatureData "my" "png"
    /\ forall up, In (EvFetch up) rest -> oss_file_name up = "my.png".
Proof.
  apply (upload_name_is_first_segment
           (Scenario.env Scenario.always_processing) Scenario.service []
           "my" "holiday.photo.PNG" initial_world).
  - reflexivity.
  - discriminate.
  - reflexivity.
Defined.

Lemma upload_extension_is_case_insensitive_witness :
  exists (req : proxy_request) (rest : list event),
    trace (snd (uploadFile (Scenario.env Scenario.always_processing)
                  Scenario.service [] "PHOTO.JPEG" initial_world))
    = EvPost req :: rest
    /\ req_data req = UploadSignatureData "PHOTO" "jpg".
Proof.
  apply (upload_extension_is_case_insensitive
           (Scenario.env Scenario.always_processing) Scenario.service []
           "PHOTO" "JPEG" initial_world).
  - reflexivity.
  - discriminate.
  - reflexivity.
Defined.

Lemma upload_rejects_name_without_dot_witness :
  uploadFile (Scenario.env Scenario.always_processing) Scenario.service []
    "photo" initial_world
  = (Throw (JsError "文件类型必须是jpg、jpeg或png"), initial_world).
Proof.
  apply (upload_rejects_name_without_dot
           (Scenario.env Scenario.always_processing) Scenario.service []
           "photo" initial_world).
  - reflexivity.
  - discriminate.
  - reflexivity.
Defined.

(** ** JobSubmitter *)

Lemma update_same (k : string) (v : value) (ps : list (string * value)) :
  lookup k ps = Some v -> update k v ps = ps.
Proof.
  induction ps as [|[k' v'] ps IH]; simpl; [discriminate|].
  destruct (String.eqb_spec k k') as [->|Hne].
  - intros Heq. injection Heq as ->. reflexivity.
  - intros Hl. rewrite (IH Hl). reflexivity.
Qed.

Lemma get_prop_lookup (o v : value) (k : string) :
  get_prop o k = v -> v <> VUndefined ->
  exists ps, o = VObj ps /\ lookup k ps = Some v.
Proof.
  intros Hget Hv. destruct o; simpl in Hget; try congruence.
  exists props. split; [reflexivity|].
  destruct (lookup k props); congruence.
Qed.

Lemma get_prop_truthy (o : value) (k : string) :
  get_prop o k <> VUndefined -> truthy o = true.
Proof.
  intros H. destruct (get_prop_defined o k H) as (ps & ->). reflexivity.
Qed.

Lemma set_prop_same (o v : value) (k : string) :
  get_prop o k = v -> v <> VUndefined -> set_prop o k v = o.
Proof.
  intros Hget Hv. destruct (get_prop_lookup o v k Hget Hv) as (ps & -> & Hl).
  simpl. rewrite (update_same k v ps Hl). reflexivity.
Qed.

Section SubmitterRuns.

Variable E : Env.
Variable this : LiblibAIService.

(** What [runComfy] does once the parameters are normalized. *)
Lemma runComfy_eq (params params' : comfy_params) (w : world) :
  normalize_image params w = (Ok params', w) ->
  runComfy E this params w
  = match post_comfy_app E (net_calls w) (comfy_request E this params' w) with
    | AxiosThrew t =>
        (Throw t, log_call (EvPost (comfy_request E this params' w)) (signed w))
    | AxiosResp r =>
        if negb (code r =? 0)
        then (Throw (JsError ("Generation failed: " ++ msg r)),
              log_call (EvPost (comfy_request E this params' w)) (signed w))
        else (Ok (generateUuid (data r)),
              log_call (EvPost (comfy_request E this params' w)) (signed w))
    end.
Proof.
  intros Hn. unfold runComfy, try_catch, bind. rewrite Hn.
  rewrite buildSignatureParams_eq. unfold axios_post. cbn [net_calls signed].
  fold (comfy_request E this params' w).
  destruct (post_comfy_app E (net_calls w) (comfy_request E this params' w)) as [t|r];
    [reflexivity|].
  destruct (negb (code r =? 0)); reflexivity.
Qed.

(** Normalization changes nothing but the world-independent parameters:
    it either raises in the world it started in or returns in it. *)
Lemma normalize_image_pure (params : comfy_params) (w : world) :
  snd (normalize_image params w) = w.
Proof.
  unfold normalize_image.
  destruct (truthy (generateParams params)
            && truthy (get_prop (generateParams params) "190")
            && truthy (get_prop (get_prop (generateParams params) "190") "inputs")
            && truthy (get_prop (get_prop (get_prop (generateParams params) "190")
                                   "inputs") "image"));
    [|reflexivity].
  unfold bind.
  destruct (get_prop (get_prop (get_prop (generateParams params) "190") "inputs")
              "image") as [| |b|n|s|ps]; try reflexivity.
  destruct (has_prop (VObj ps) "key"); reflexivity.
Qed.

(** An image reference that is absent or falsy, or a string that starts
    with "http", leaves the parameters as they are. *)
Lemma normalize_image_unchanged (params : comfy_params) (w : world) :
  truthy (image_of params) = false
  \/ (exists s, image_of params = VStr s /\ Js.startsWith s "http" = true) ->
  normalize_image params w = (Ok params, w).
Proof.
  unfold image_of. intros [Hfalsy | (s & Himg & Hhttp)].
  - unfold normalize_image. rewrite Hfalsy, !andb_false_r. reflexivity.
  - assert (Hinputs : get_prop (get_prop (generateParams params) "190") "inputs"
                      <> VUndefined).
    { intros Hu. rewrite Hu in Himg. discriminate. }
    assert (Hnode : get_prop (generateParams params) "190" <> VUndefined).
    { intros Hu. rewrite Hu in Hinputs. apply Hinputs. reflexivity. }
    assert (Hs : truthy (VStr s) = true).
    { destruct s; [discriminate | reflexivity]. }
    assert (Himage : get_prop (get_prop (get_prop (generateParams params) "190")
                                 "inputs") "image" <> VUndefined)
      by (rewrite Himg; discriminate).
    unfold normalize_image.
    rewrite (get_prop_truthy _ _ Hnode), (get_prop_truthy _ _ Hinputs),
      (get_prop_truthy _ _ Himage), Himg, Hs.
    cbn [andb]. unfold bind, ret. rewrite Hhttp. cbn [negb].
    rewrite (set_prop_same _ (VStr s) "image" Himg) by discriminate.
    rewrite (set_prop_same _ _ "inputs" eq_refl Hinputs).
    rewrite (set_prop_same _ _ "190" eq_refl Hnode).
    destruct params; reflexivity.
Qed.

(** X14.  When the image reference of node "190" is absent or falsy, or
    is a string that starts with "http", [runComfy] submits the
    parameters exactly as it received them, in its one network call. *)
Theorem submission_keeps_absolute_urls (params : comfy_params) (w : world) :
  truthy (image_of params) = false
  \/ (exists s, image_of params = VStr s /\ Js.startsWith s "http" = true) ->
  trace (snd (runComfy E this params w))
  = (trace w ++ [EvPost (comfy_request E this params w)])%list
  /\ req_data (comfy_request E this params w) = ComfyData params.
Proof.
  intros H. split; [|reflexivity].
  apply runComfy_trace, normalize_image_unchanged, H.
Qed.

(** X15.  When the image reference is truthy and is neither a string nor
    an object with a [key] property (a number, [true], an object
    without [key]), [runComfy] raises the format error in the world it
    was called in: nothing is signed and nothing is sent. *)
Theorem submission_rejects_unusable_image (params : comfy_params) (w : world) :
  unusable_image (image_of params) = true ->
  runComfy E this params w = (Throw (JsError "无效的图片URL格式"), w).
Proof.
  unfold image_of. intros Hbad.
  assert (Himage : get_prop (get_prop (get_prop (generateParams params) "190")
                               "inputs") "image" <> VUndefined).
  { intros Hu. rewrite Hu in Hbad. discriminate. }
  assert (Hinputs : get_prop (get_prop (generateParams params) "190") "inputs"
                    <> VUndefined).
  { intros Hu. rewrite Hu in Himage. apply Himage. reflexivity. }
  assert (Hnode : get_prop (generateParams params) "190" <> VUndefined).
  { intros Hu. rewrite Hu in Hinputs. apply Hinputs. reflexivity. }
  unfold runComfy, try_catch, bind, normalize_image.
  rewrite (get_prop_truthy _ _ Hnode), (get_prop_truthy _ _ Hinputs),
    (get_prop_truthy _ _ Himage).
  destruct (get_prop (get_prop (get_prop (generateParams params) "190") "inputs")
              "image") as [| |b|n|s|ps]; try discriminate;
    cbn [unusable_image] in Hbad; cbn [truthy andb has_prop].
  - subst b. reflexivity.
  - rewrite Hbad. reflexivity.
  - destruct (lookup "key" ps); [discriminate | reflexivity].
Qed.

(** X16.  When the image reference is an object whose [key] property is a
    string, [runComfy] submits, in place of the object, that key made
    absolute: the key itself if it starts with "http", the storage base
    address, '/' and the key otherwise.  No other property of the object
    is consulted. *)
Theorem submission_resolves_key_object
  (params : comfy_params) (w : world) (ps : list (string * value)) (k : string) :
  image_of params = VObj ps ->
  lookup "key" ps = Some (VStr k) ->
  exists (req : proxy_request) (params' : comfy_params),
    trace (snd (runComfy E this params w)) = (trace w ++ [EvPost req])%list
    /\ req_data req = ComfyData params'
    /\ image_of params'
       = VStr (if Js.startsWith k "http" then k else ossBaseUrl ++ "/" ++ k).
Proof.
  unfold image_of. intros Himg Hkey.
  destruct (get_prop_defined
              (get_prop (get_prop (generateParams params) "190") "inputs") "image")
    as [inputs Hinputs]; [rewrite Himg; discriminate|].
  destruct (get_prop_defined (get_prop (generateParams params) "190") "inputs")
    as [node Hnode]; [rewrite Hinputs; discriminate|].
  destruct (get_prop_defined (generateParams params) "190")
    as [gp Hgp]; [rewrite Hnode; discriminate|].
  assert (Hnorm :
    normalize_image params w
    = (Ok {| templateUuid := templateUuid params;
             generateParams :=
               set_prop (VObj gp) "190"
                 (set_prop (VObj node) "inputs"
                    (set_prop (VObj inputs) "image"
                       (VStr (if Js.startsWith k "http" then k
                              else ossBaseUrl ++ "/" ++ k)))) |}, w)).
  { unfold normalize_image, bind.
    rewrite Himg, Hinputs, Hnode, Hgp. cbn [truthy andb has_prop].
    rewrite Hkey. cbn [get_prop]. rewrite Hkey. unfold ret.
    destruct (Js.startsWith k "http"); reflexivity. }
  eexists. eexists.
  split; [apply runComfy_trace; exact Hnorm|]. split; [reflexivity|].
  cbn [generateParams]. rewrite !get_set_prop. reflexivity.
Qed.

Lemma runComfy_normalize_throws (params : comfy_params) (t : thrown) (w : world) :
  normalize_image params w = (Throw t, w) ->
  runComfy E this params w = (Throw t, w).
Proof.
  intros Hn. unfold runComfy, try_catch, bind. rewrite Hn. reflexivity.
Qed.

(** X17.  When [runComfy] returns a job identifier, it made exactly one
    network call, the submission of the normalized parameters to the
    path /api/generate/comfyui/app of the proxy; the endpoint answered
    it with code 0, and the identifier is the [generateUuid] of that
    answer. *)
Theorem submission_returns_job_of_code_0
  (params : comfy_params) (w w' : world) (job : string) :
  runComfy E this params w = (Ok job, w') ->
  exists (params' : comfy_params) (r : axios_response generate_data),
    normalize_image params w = (Ok params', w)
    /\ post_comfy_app E (net_calls w) (comfy_request E this params' w) = AxiosResp r
    /\ code r = 0
    /\ job = generateUuid (data r)
    /\ trace w' = (trace w ++ [EvPost (comfy_request E this params' w)])%list
    /\ net_calls w' = S (net_calls w).
Proof.
  intros Hrun.
  pose proof (normalize_image_pure params w) as Hpure.
  pose proof (surjective_pairing (normalize_image params w)) as Hpair.
  rewrite Hpure in Hpair.
  set (res := fst (normalize_image params w)) in Hpair.
  clearbody res.
  destruct res as [params'|t].
  - rewrite (runComfy_eq params params' w Hpair) in Hrun.
    destruct (post_comfy_app E (net_calls w) (comfy_request E this params' w))
      as [t|r] eqn:Hans; [discriminate|].
    destruct (code r =? 0) eqn:Hcode; cbn [negb] in Hrun; [|discriminate].
    injection Hrun as <- <-.
    exists params', r. apply Z.eqb_eq in Hcode.
    repeat split; assumption || reflexivity.
  - rewrite (runComfy_normalize_throws params t w Hpair) in Hrun. discriminate.
Qed.

End SubmitterRuns.

Lemma submission_keeps_absolute_urls_witness :
  trace (snd (runComfy (Scenario.env Scenario.always_processing) Scenario.service
                (Scenario.params_with_image (VStr "https://cdn.example/in.png"))
                initial_world))
  = [EvPost (comfy_request (Scenario.env Scenario.always_processing)
               Scenario.service
               (Scenario.params_with_image (VStr "https://cdn.example/in.png"))
               initial_world)].
Proof.
  apply (submission_keeps_absolute_urls (Scenario.env Scenario.always_processing)
           Scenario.service
           (Scenario.params_with_image (VStr "https://cdn.example/in.png"))
           initial_world).
  right. exists "https://cdn.example/in.png". split; reflexivity.
Defined.

Lemma submission_rejects_unusable_image_witness :
  runComfy (Scenario.env Scenario.always_processing) Scenario.service
    (Scenario.params_with_image (VNum 42)) initial_world
  = (Throw (JsError "无效的图片URL格式"), initial_world).
Proof.
  apply (submission_rejects_unusable_image (Scenario.env Scenario.always_processing)
           Scenario.service (Scenario.params_with_image (VNum 42)) initial_world).
  reflexivity.
Defined.

Lemma submission_resolves_key_object_witness :
  exists (req : proxy_request) (params' : comfy_params),
    trace (snd (runComfy (Scenario.env Scenario.always_processing) Scenario.service
                  (Scenario.params_with_image
                     (VObj [("key", VStr "abc123.png"); ("ossBaseUrl", VStr "x")]))
                  initial_world))
    = [EvPost req]
    /\ req_data req = ComfyData params'
    /\ image_of params'
       = VStr "https://liblibai-airship-temp.oss-cn-beijing.aliyuncs.com/abc123.png".
Proof.
  apply (submission_resolves_key_object (Scenario.env Scenario.always_processing)
           Scenario.service
           (Scenario.params_with_image
              (VObj [("key", VStr "abc123.png"); ("ossBaseUrl", VStr "x")]))
           initial_world
           [("key", VStr "abc123.png"); ("ossBaseUrl", VStr "x")] "abc123.png").
  - reflexivity.
  - reflexivity.
Defined.

Lemma submission_returns_job_of_code_0_witness :
  let run :=
    runComfy (Scenario.env Scenario.always_processing) Scenario.service
      (Scenario.params_with_image (VStr "abc123.png")) initial_world in
  fst run = Ok "job-1" /\ net_calls (snd run) = 1%nat.
Proof.
  intros run.
  destruct (submission_returns_job_of_code_0
              (Scenario.env Scenario.always_processing) Scenario.service
              (Scenario.params_with_image (VStr "abc123.png")) initial_world
              (snd run) "job-1")
    as (params' & r & _ & _ & _ & _ & _ & Hcalls).
  - vm_compute. reflexivity.
  - split; [vm_compute; reflexivity | exact Hcalls].
Defined.

(** ** generateImage *)

Section ImageRuns.

Variable E : Env.
Variable this : LiblibAIService.

Lemma absolute_url_starts_with_http (s : string) :
  Js.startsWith (absolute_url s) "http" = true.
Proof.
  unfold absolute_url. destruct (Js.startsWith s "http") eqn:Hs; [exact Hs | reflexivity].
Qed.

(** Once the reference is resolved to [s], [generateImage] is
    [runComfy] on the workflow built around its absolute form. *)
Lemma generateImage_resolved (params : image_params) (s : string) (w : world) :
  match gi_uploadedUrl params with
  | UploadedString s' => s' = s
  | UploadedObject key base =>
      key <> ""
      /\ s = match base with
             | Some (String c b) => String c b ++ "/" ++ key
             | _ => ossBaseUrl ++ "/" ++ key
             end
  end ->
  generateImage E this params w
  = runComfy E this (image_workflow params (absolute_url s)) w.
Proof.
  intros Hres. unfold generateImage, try_catch at 1, bind at 1.
  assert (Hfirst :
    (match gi_uploadedUrl params with
     | UploadedObject key base =>
         if negb (String.eqb key "") then
           match base with
           | Some (String c b) => ret (String c b ++ "/" ++ key)
           | _ => ret (ossBaseUrl ++ "/" ++ key)
           end
         else throw (JsError "无效的图片URL格式")
     | UploadedString s0 => ret s0
     end) w = (Ok s, w)).
  { destruct (gi_uploadedUrl params) as [s'|key base].
    - subst s'. reflexivity.
    - destruct Hres as [Hkey ->].
      apply String.eqb_neq in Hkey. rewrite Hkey. cbn [negb].
      destruct base as [[|c b]|]; reflexivity. }
  rewrite Hfirst. fold (absolute_url s). fold (image_workflow params (absolute_url s)).
  unfold bind.
  destruct (runComfy E this (image_workflow params (absolute_url s)) w) as [[job|t] w'];
    reflexivity.
Qed.

(** X18.  For a string reference, [generateImage] makes one network
    call, the submission, and the image reference it submits always
    starts with "http": the string itself if it does, the storage base
    address, '/' and the string otherwise (the empty string included,
    which [runComfy] called directly would leave as it is). *)
Theorem image_generation_submits_absolute_url
  (params : image_params) (s : string) (w : world) :
  gi_uploadedUrl params = UploadedString s ->
  exists (req : proxy_request) (submitted : comfy_params) (url : string),
    trace (snd (generateImage E this params w)) = (trace w ++ [EvPost req])%list
    /\ req_data req = ComfyData submitted
    /\ image_of submitted = VStr url
    /\ url = (if Js.startsWith s "http" then s else ossBaseUrl ++ "/" ++ s)
    /\ Js.startsWith url "http" = true.
Proof.
  intros Hs.
  rewrite (generateImage_resolved params s w) by (rewrite Hs; reflexivity).
  exists (comfy_request E this (image_workflow params (absolute_url s)) w),
         (image_workflow params (absolute_url s)), (absolute_url s).
  split.
  - apply runComfy_trace, normalize_image_unchanged. right.
    exists (absolute_url s). split; [reflexivity | apply absolute_url_starts_with_http].
  - split; [reflexivity|]. split; [reflexivity|]. split.
    + unfold absolute_url. destruct (Js.startsWith s "http"); reflexivity.
    + apply absolute_url_starts_with_http.
Qed.

(** X19.  For an object reference with a non-empty key, [generateImage]
    joins the object's own base address (the storage base address when
    the object has none or an empty one), '/' and the key; it submits
    that URL if it starts with "http", and the storage base address, '/'
    and that URL otherwise.  What it submits always starts with "http". *)
Theorem image_generation_resolves_key_object
  (params : image_params) (key : string) (base : option string) (w : world) :
  gi_uploadedUrl params = UploadedObject key base ->
  key <> "" ->
  exists (req : proxy_request) (submitted : comfy_params) (url : string),
    trace (snd (generateImage E this params w)) = (trace w ++ [EvPost req])%list
    /\ req_data req = ComfyData submitted
    /\ image_of submitted = VStr url
    /\ url = (let joined := Js.or_else base ossBaseUrl ++ "/" ++ key in
              if Js.startsWith joined "http" then joined
              else ossBaseUrl ++ "/" ++ joined)
    /\ Js.startsWith url "http" = true.
Proof.
  intros Hu Hkey.
  set (joined := Js.or_else base ossBaseUrl ++ "/" ++ key).
  rewrite (generateImage_resolved params joined w).
  - exists (comfy_request E this (image_workflow params (absolute_url joined)) w),
           (image_workflow params (absolute_url joined)), (absolute_url joined).
    split.
    + apply runComfy_trace, normalize_image_unchanged. right.
      exists (absolute_url joined).
      split; [reflexivity | apply absolute_url_starts_with_http].
    + split; [reflexivity|]. split; [reflexivity|]. split.
      * unfold absolute_url. destruct (Js.startsWith joined "http"); reflexivity.
      * apply absolute_url_starts_with_http.
  - rewrite Hu. split; [exact Hkey|].
    unfold joined. destruct base as [[|c b]|]; reflexivity.
Qed.

(** X20.  For an object reference whose key is empty, [generateImage]
    raises the format error in the world it was called in: nothing is
    signed and nothing is sent. *)
Theorem image_generation_rejects_empty_key
  (params : image_params) (base : option string) (w : world) :
  gi_uploadedUrl params = UploadedObject "" base ->
  generateImage E this params w = (Throw (JsError "无效的图片URL格式"), w).
Proof.
  intros Hu. unfold generateImage, try_catch, bind. rewrite Hu. reflexivity.
Qed.

End ImageRuns.

Lemma image_generation_submits_absolute_url_witness :
  exists (req : proxy_request) (submitted : comfy_params) (url : string),
    trace (snd (generateImage (Scenario.env Scenario.always_processing)
                  Scenario.service Sample.upload_by_name initial_world))
    = [EvPost req]
    /\ req_data req = ComfyData submitted
    /\ image_of submitted = VStr url
    /\ url = "https://liblibai-airship-temp.oss-cn-beijing.aliyuncs.com/abc123.png"
    /\ Js.startsWith url "http" = true.
Proof.
  apply (image_generation_submits_absolute_url
           (Scenario.env Scenario.always_processing) Scenario.service
           Sample.upload_by_name "abc123.png" initial_world).
  reflexivity.
Defined.

Lemma image_generation_resolves_key_object_witness :
  exists (req : proxy_request) (submitted : comfy_params) (url : string),
    trace (snd (generateImage (Scenario.env Scenario.always_processing)
                  Scenario.service Sample.upload_by_key initial_world))
    = [EvPost req]
    /\ req_data req = ComfyData submitted
    /\ image_of submitted = VStr url
    /\ url = "https://liblibai-airship-temp.oss-cn-beijing.aliyuncs.com/uploads/photo.png"
    /\ Js.startsWith url "http" = true.
Proof.
  apply (image_generation_resolves_key_object
           (Scenario.env Scenario.always_processing) Scenario.service
           Sample.upload_by_key "uploads/photo.png" None initial_world).
  - reflexivity.
  - discriminate.
Defined.

Lemma image_generation_rejects_empty_key_witness :
  generateImage (Scenario.env Scenario.always_processing) Scenario.service
    Sample.upload_without_key initial_world
  = (Throw (JsError "无效的图片URL格式"), initial_world).
Proof.
  apply (image_generation_rejects_empty_key
           (Scenario.env Scenario.always_processing) Scenario.service
           Sample.upload_without_key (Some "https://cdn.example") initial_world).
  reflexivity.
Defined.

(** ** More on polling and uploading *)

(** X21.  While the status queries answer with non-terminal payloads, or
    fail with errors whose message holds neither "failed" nor "timed
    out", the poller keeps polling; when query number [n] (from 0), still
    within the attempt budget, answers Success with a result, the run
    returns the first result's URL after exactly [n + 1] queries and [n]
    sleeps. *)
Theorem polling_retries_until_success
  (E : Env) (this : LiblibAIService) (generateUuid : string)
  (maxAttempts interval : Z) (w0 : world) (n : nat) (st : status_data)
  (first : image) (others : list image) :
  (forall k, (k < n)%nat ->
     keeps_polling (reply_at E this generateUuid interval w0 k) = true) ->
  (n < Z.to_nat maxAttempts)%nat ->
  reply_at E this generateUuid interval w0 n = Ok st ->
  status_is st GenerateStatus.SUCCESS = true ->
  images st = Some (first :: others) ->
  waitAppResult E this generateUuid maxAttempts interval w0
  = (Ok (imageUrl first),
     queried E this generateUuid (polled E this generateUuid interval n w0))
  /\ net_calls (queried E this generateUuid
                  (polled E this generateUuid interval n w0))
     = (net_calls w0 + n + 1)%nat.
Proof.
  intros Hk Hlt Hr Hs Himg. split.
  - apply (retried_then_success E this generateUuid maxAttempts interval w0 n st
             first others Hk Hlt Hr Hs Himg).
  - rewrite net_calls_queried, net_calls_polled. lia.
Qed.

Lemma polling_retries_until_success_witness :
  fst (waitAppResult (Scenario.env Scenario.done_at_3) Scenario.service "job-1" 60
         3000 initial_world)
  = Ok Scenario.result_url.
Proof.
  rewrite (proj1 (polling_retries_until_success
                    (Scenario.env Scenario.done_at_3) Scenario.service "job-1" 60
                    3000 initial_world 2
                    {| generateStatus := Some GenerateStatus.SUCCESS;
                       images := Scenario.one_result; failReason := None |}
                    {| imageUrl := Scenario.result_url |} []
                    ltac:(intros k Hk;
                          destruct k as [|[|k]]; [reflexivity | reflexivity | lia])
                    ltac:(vm_compute; lia) eq_refl eq_refl eq_refl)).
  reflexivity.
Defined.

(** X22.  On the last attempt a Success payload without a result ends the
    run with the error "No images found in successful generation
    result", raised in the world that query left. *)
Theorem last_attempt_success_without_result_raises
  (E : Env) (this : LiblibAIService) (generateUuid : string)
  (maxAttempts interval : Z) (w0 : world) (n : nat) (w : world)
  (st : status_data) :
  reaches E this generateUuid maxAttempts interval w0 (S n) maxAttempts w ->
  reply_at E this generateUuid interval w 0 = Ok st ->
  status_is st GenerateStatus.SUCCESS = true ->
  images st = None \/ images st = Some [] ->
  waitAppResult E this generateUuid maxAttempts interval w0
  = (Throw (JsError "No images found in successful generation result"),
     queried E this generateUuid w).
Proof.
  intros Hreach Hr Hs Himg.
  rewrite (reaches_run _ _ _ _ _ _ _ _ _ Hreach). cbn [poll_loop]. unfold bind.
  rewrite (iteration_success_empty E this generateUuid maxAttempts interval
             maxAttempts w st Hr Hs Himg).
  rewrite Z.eqb_refl. reflexivity.
Qed.

Lemma last_attempt_success_without_result_raises_witness :
  waitAppResult (Scenario.env Scenario.empty_then_result) Scenario.service "job-1" 1
    3000 initial_world
  = (Throw (JsError "No images found in successful generation result"),
     queried (Scenario.env Scenario.empty_then_result) Scenario.service "job-1"
       initial_world).
Proof.
  apply (last_attempt_success_without_result_raises
           (Scenario.env Scenario.empty_then_result) Scenario.service "job-1" 1 3000
           initial_world 0 initial_world
           {| generateStatus := Some GenerateStatus.SUCCESS; images := Some [];
              failReason := None |}).
  - exact (reaches_first (Scenario.env Scenario.empty_then_result) Scenario.service
             "job-1" 1 3000 initial_world).
  - reflexivity.
  - reflexivity.
  - right. reflexivity.
Defined.

(** X23.  Without authorization there is no upload: when the filename is
    accepted and the authorization endpoint answers with a non-zero
    code, [uploadFile] raises "获取签名失败: <msg>" after that one network
    call and never contacts object storage. *)
Theorem upload_stops_when_authorization_is_refused
  (E : Env) (this : LiblibAIService) (fileBuffer : list Byte.byte)
  (filename : string) (w : world) (r : axios_response signature_data) :
  Js.array_includes allowed_extensions (file_extension filename) = true ->
  post_upload_signature E (net_calls w) (authorization_request E this filename w)
  = AxiosResp r ->
  code r <> 0 ->
  uploadFile E this fileBuffer filename w
  = (Throw (JsError ("获取签名失败: " ++ msg r)),
     log_call (EvPost (authorization_request E this filename w)) (signed w))
  /\ trace (snd (uploadFile E this fileBuffer filename w))
     = (trace w ++ [EvPost (authorization_request E this filename w)])%list.
Proof.
  intros Hacc Hans Hcode.
  rewrite (uploadFile_accepted E this fileBuffer filename w Hacc). cbv zeta.
  rewrite Hans. apply Z.eqb_neq in Hcode. rewrite Hcode. cbn [negb].
  split; reflexivity.
Qed.

(** X24.  When object storage answers the upload with a status outside
    200..299, [uploadFile] raises an error whose message carries that
    status and the body of the answer; it does not retry: the
    authorization request and the one upload are the only network
    calls. *)
Theorem upload_failure_carries_status_and_body
  (E : Env) (this : LiblibAIService) (fileBuffer : list Byte.byte)
  (filename : string) (w : world) (r : axios_response signature_data)
  (status : Z) (text : string) :
  Js.array_includes allowed_extensions (file_extension filename) = true ->
  post_upload_signature E (net_calls w) (authorization_request E this filename w)
  = AxiosResp r ->
  code r = 0 ->
  fetch E (S (net_calls w)) (upload_request fileBuffer (proxied (data r)) filename)
  = FetchResp status text ->
  status < 200 \/ 300 <= status ->
  fst (uploadFile E this fileBuffer filename w)
  = Throw (JsError ("上传失败，状态码: " ++ Js.string_of_Z status
                    ++ ", 响应: " ++ text))
  /\ net_calls (snd (uploadFile E this fileBuffer filename w))
     = (net_calls w + 2)%nat.
Proof.
  intros Hacc Hans Hcode Hfetch Hstatus.
  rewrite (uploadFile_accepted E this fileBuffer filename w Hacc). cbv zeta.
  rewrite Hans, Hcode, Hfetch. cbn [Z.eqb negb].
  assert (Hrange : (200 <=? status) && (status <? 300) = false).
  { destruct Hstatus as [Hlo | Hhi].
    - apply Z.leb_gt in Hlo. rewrite Hlo. reflexivity.
    - apply Z.ltb_ge in Hhi. rewrite Hhi. apply andb_false_r. }
  rewrite Hrange. split; [reflexivity|].
  cbn [snd net_calls log_call signed]. lia.
Qed.

Lemma upload_stops_when_authorization_is_refused_witness :
  uploadFile Sample.refusing Scenario.service [] "photo.png" initial_world
  = (Throw (JsError "获取签名失败: quota exceeded"),
     log_call
       (EvPost (authorization_request Sample.refusing Scenario.service "photo.png"
                  initial_world))
       (signed initial_world)).
Proof.
  apply (upload_stops_when_authorization_is_refused Sample.refusing Scenario.service
           [] "photo.png" initial_world
           {| code := 403; msg := "quota exceeded"; data := Scenario.authorization |}).
  - reflexivity.
  - reflexivity.
  - discriminate.
Defined.

Lemma upload_failure_carries_status_and_body_witness :
  fst (uploadFile Sample.forbidden Scenario.service [] "photo.png" initial_world)
  = Throw (JsError "上传失败，状态码: 403, 响应: AccessDenied")
  /\ net_calls (snd (uploadFile Sample.forbidden Scenario.service [] "photo.png"
                       initial_world)) = 2%nat.
Proof.
  apply (upload_failure_carries_status_and_body Sample.forbidden Scenario.service
           [] "photo.png" initial_world
           {| code := 0; msg := "success"; data := Scenario.authorization |}
           403 "AccessDenied").
  - reflexivity.
  - reflexivity.
  - reflexivity.
  - reflexivity.
  - right. lia.
Defined.
